(** * keephy_notifications: rule evaluation and notification life cycle

    A shallow embedding of the three source files of the service

      - models/NotificationRule.js  (conditions, gating, statistics),
      - models/Notification.js      (per-recipient delivery state),
      - src/index.js                (the POST /api/notifications/trigger handler),

    followed by the properties of the specification checked against it.

    Conventions of the embedding.
      - A JavaScript value is a [Value]: the JSON values an HTTP body or a
        stored [Mixed] field can hold, plus [undefined], plus the built-in
        functions and objects a property read can reach through the
        prototype chain.
      - A JavaScript number is a binary64 floating-point number (a
        primitive [float], with its NaN, infinities and rounding); counters
        and time stamps (milliseconds since the epoch), which stay far below
        2^53, are integers.
      - A string is a [string], a sequence of characters; lengths and
        indices count them.
      - An operation that can throw returns [option]; [None] is the
        exception.
      - The clock is an argument: all the readings one call makes
        ([new Date()], [Date.now()]) are taken at the same instant [now].
      - A document is the record of its fields; [save] is the identity on it
        (with the pre-save hook that stamps [updatedAt]).  The two saves of
        the handler run the validation of the schema: of the notification it
        builds and of the rule document it updates; either can be refused.
        The methods of the models are given as the document they write.
      - The parts of the JavaScript runtime that are algorithms of the
        language and not of this repository (string-to-number conversion,
        number printing, case mapping, time-zone conversion, the members of
        the built-in prototypes) form the interface [JSRuntime]; every
        general theorem holds for any implementation of it, and
        [ref_runtime] is a small executable one used to run the model on
        concrete inputs. *)

From Stdlib Require Import List String Ascii ZArith QArith Qround Bool Lia.
From Stdlib Require Import Floats Uint63.
From Stdlib Require Import Sorted Permutation.
Import ListNotations.

Local Open Scope string_scope.
Local Open Scope Z_scope.

Set Warnings "-register-all".

(** ** A small error monad: [None] is a thrown exception *)

Definition bind {A B : Type} (m : option A) (k : A -> option B) : option B :=
  match m with
  | Some a => k a
  | None => None
  end.

Notation "x <- m ;; k" := (bind m (fun x => k))
  (at level 61, m at next level, right associativity).

(** ** JavaScript numbers *)

Module JS.

(** The relational operators on numbers; every comparison with NaN is
    false. *)
Definition num_lt (a b : float) : bool := (a <? b)%float.

(** [a > b] *)
Definition num_gt (a b : float) : bool := (b <? a)%float.

(** [a <= b] *)
Definition num_le (a b : float) : bool := (a <=? b)%float.

(** [a >= b] *)
Definition num_ge (a b : float) : bool := (b <=? a)%float.

(** A count as a number.  Array and string lengths are below 2^32, far
    inside the range where the conversion is exact. *)
Definition binary64_of_nat (k : nat) : float :=
  PrimFloat.of_uint63 (Uint63.of_Z (Z.of_nat k)).

(** The rational number a finite binary64 number stands for. *)
Definition exact_value (f : float) : Q :=
  match Prim2SF f with
  | S754_finite s m e =>
      ((if s then - inject_Z (Zpos m) else inject_Z (Zpos m)) * Qpower 2 e)%Q
  | _ => 0%Q
  end.

(** ** JavaScript values

    An object is the list of its own properties, in order; the first
    binding of a key is the property.  Payloads, stored documents and
    condition values are made of the first seven forms.  [VNative h] is a
    built-in function or object of the runtime (a constructor, a prototype,
    a method), which only a property read can reach; [h] is the name the
    runtime gives it. *)

Inductive Value : Type :=
| VUndef
| VNull
| VBool (b : bool)
| VNum (x : float)
| VStr (s : string)
| VArr (elems : list Value)
| VObj (props : list (string * Value))
| VNative (h : list string).

(** The runtime services the repository's code calls but does not define. *)
Class JSRuntime : Type := {
  (** [Number(s)] on a string: the StringToNumber algorithm. *)
  StringToNumber : string -> float;
  (** [String(x)] on a number: Number::toString. *)
  NumberToString : float -> string;
  (** [String.prototype.toLowerCase]. *)
  toLowerCase : string -> string;
  (** The wall clock (hours, minutes) that the instant [now] shows in a time
      zone: [new Date(now.toLocaleString("en-US", {timeZone}))] read with
      [getHours] and [getMinutes].  [None] is the RangeError of an unknown
      zone name. *)
  localTime : string -> Z -> option (float * float);
  (** [container[key]] where [key] is not an own property of [container]:
      what the prototype chain gives, and every read on a built-in.
      [Some VUndef] when no member goes by the name, [None] when the member
      is an accessor that throws ([caller] and [arguments] of a built-in
      function). *)
  inherited : Value -> string -> option Value;
  (** [String(f)] and [Number(f)] on a built-in function or object; they
      convert without an exception. *)
  native_to_string : list string -> string;
  native_to_number : list string -> float
}.

(** ToBoolean *)
Definition truthy (v : Value) : bool :=
  match v with
  | VUndef | VNull => false
  | VBool b => b
  | VNum x => negb (PrimFloat.eqb x 0 || PrimFloat.is_nan x)
  | VStr s => negb (String.eqb s "")
  | VArr _ | VObj _ | VNative _ => true
  end.


(** Own-property lookup in an object literal. *)
Fixpoint lookup (key : string) (props : list (string * Value)) : option Value :=
  match props with
  | [] => None
  | (k, v) :: rest => if String.eqb k key then Some v else lookup key rest
  end.

Definition has_own (key : string) (props : list (string * Value)) : bool :=
  match lookup key props with Some _ => true | None => false end.

Definition is_digit (c : ascii) : bool :=
  let n := nat_of_ascii c in (48 <=? n)%nat && (n <=? 57)%nat.

Definition digit_val (c : ascii) : Z := Z.of_nat (nat_of_ascii c) - 48.

Fixpoint digits_val (l : list ascii) (acc : Z) : Z :=
  match l with
  | [] => acc
  | c :: rest => digits_val rest (10 * acc + digit_val c)
  end.

(** A property key that is a canonical array index: "0", or decimal digits
    without a leading zero. *)
Definition array_index (key : string) : option nat :=
  match list_ascii_of_string key with
  | [] => None
  | c :: rest =>
      if forallb is_digit (c :: rest)
         && (negb (Ascii.eqb c "0"%char) || match rest with [] => true | _ => false end)
      then Some (Z.to_nat (digits_val (c :: rest) 0))
      else None
  end.

Definition char_at (s : string) (i : nat) : option string :=
  match String.get i s with
  | Some c => Some (String c EmptyString)
  | None => None
  end.

(** The own property [key] of a JSON value, if it has one: the listed
    properties of an object, [length] and the indices of an array or of a
    string. *)
Definition own_prop (container : Value) (key : string) : option Value :=
  match container with
  | VStr s =>
      if String.eqb key "length" then Some (VNum (binary64_of_nat (String.length s)))
      else match array_index key with
           | Some i => match char_at s i with
                       | Some c => Some (VStr c)
                       | None => None
                       end
           | None => None
           end
  | VArr elems =>
      if String.eqb key "length" then Some (VNum (binary64_of_nat (List.length elems)))
      else match array_index key with
           | Some i => nth_error elems i
           | None => None
           end
  | VObj props => lookup key props
  | _ => None
  end.

Definition is_undefined (v : Value) : bool :=
  match v with VUndef => true | _ => false end.

(** Neither an array nor an object nor a built-in. *)
Definition is_primitive (v : Value) : bool :=
  match v with VArr _ | VObj _ | VNative _ => false | _ => true end.

(** [a === b].  Objects, arrays and built-ins compare by identity; the two
    operands the repository compares never share one (one comes from the
    request or from the runtime, the other from the rule document), so the
    comparison of two of them is false. *)
Definition strict_equals (a b : Value) : bool :=
  match a, b with
  | VUndef, VUndef => true
  | VNull, VNull => true
  | VBool x, VBool y => Bool.eqb x y
  | VNum x, VNum y => PrimFloat.eqb x y
  | VStr x, VStr y => String.eqb x y
  | _, _ => false
  end.

(** SameValueZero, the comparison of [includes]: [===], and NaN is itself. *)
Definition same_value_zero (a b : Value) : bool :=
  strict_equals a b
  || match a, b with
     | VNum x, VNum y => PrimFloat.is_nan x && PrimFloat.is_nan y
     | _, _ => false
     end.

(** [array.includes(x)] *)
Definition array_includes (elems : list Value) (x : Value) : bool :=
  existsb (fun e => same_value_zero e x) elems.

(** [s.split(sep)] for a one-character separator. *)
Fixpoint split (sep : ascii) (s : string) : list string :=
  match s with
  | EmptyString => [EmptyString]
  | String c rest =>
      if Ascii.eqb c sep then EmptyString :: split sep rest
      else match split sep rest with
           | [] => [String c EmptyString]
           | w :: ws => String c w :: ws
           end
  end.

(** [s.includes(sub)] *)
Fixpoint includes (s sub : string) : bool :=
  if String.prefix sub s then true
  else match s with
       | EmptyString => false
       | String _ rest => includes rest sub
       end.

Fixpoint join_with (sep : string) (parts : list string) : string :=
  match parts with
  | [] => ""
  | [p] => p
  | p :: rest => p ++ sep ++ join_with sep rest
  end.

(** The values [String] and [Number] accept: no object with an own
    [toString] entry, in the value or in an array (at any depth) that has to
    be printed.  The entries of an object are not looked at.  The built-ins
    convert. *)
Fixpoint convertible (v : Value) : bool :=
  match v with
  | VArr elems => forallb convertible elems
  | VObj props => negb (has_own "toString" props)
  | _ => true
  end.

(** A value without an own [toString] entry in any object, however deep:
    what every path of it resolves to is [convertible]. *)
Fixpoint deep_plain (v : Value) : bool :=
  match v with
  | VArr elems => forallb deep_plain elems
  | VObj props =>
      negb (has_own "toString" props)
      && forallb (fun kv => deep_plain (snd kv)) props
  | _ => true
  end.

(** A value as a request body or a stored document holds it (or
    [undefined], for what is absent): no built-in in it, at any depth. *)
Fixpoint json (v : Value) : bool :=
  match v with
  | VArr elems => forallb json elems
  | VObj props => forallb (fun kv => json (snd kv)) props
  | VNative _ => false
  | _ => true
  end.

(** The character [c] occurs in [s]. *)
Fixpoint mentions (c : ascii) (s : string) : bool :=
  match s with
  | EmptyString => false
  | String d rest => Ascii.eqb d c || mentions c rest
  end.

Fixpoint sequence {A : Type} (l : list (option A)) : option (list A) :=
  match l with
  | [] => Some []
  | x :: rest => a <- x ;; r <- sequence rest ;; Some (a :: r)
  end.

Section Coercions.
Context {RT : JSRuntime}.

(** [container[key]].  [None] is a TypeError: of reading a property of
    [null] or [undefined], or of a built-in accessor that throws.  An own
    property is read as it is; any other key goes through the prototype
    chain, which the runtime provides, and reads as [undefined] when no
    member goes by that name. *)
Definition get_prop (container : Value) (key : string) : option Value :=
  match container with
  | VUndef | VNull => None
  | _ =>
      match own_prop container key with
      | Some v => Some v
      | None => inherited container key
      end
  end.

(** [String(v)].  An array is joined with commas, [null] and [undefined]
    elements printing as the empty string.  A plain object prints through
    [Object.prototype.toString] unless it has an own [toString] property:
    a JSON value is never callable, so [toString] is skipped, the inherited
    [valueOf] returns the object itself, and the conversion throws a
    TypeError. *)
Fixpoint to_string (v : Value) : option string :=
  match v with
  | VUndef => Some "undefined"
  | VNull => Some "null"
  | VBool true => Some "true"
  | VBool false => Some "false"
  | VNum x => Some (NumberToString x)
  | VStr s => Some s
  | VArr elems =>
      parts <- sequence (map (fun e => match e with
                                       | VUndef | VNull => Some ""
                                       | _ => to_string e
                                       end) elems) ;;
      Some (join_with "," parts)
  | VObj props =>
      if has_own "toString" props then None else Some "[object Object]"
  | VNative h => Some (native_to_string h)
  end.

(** [Number(v)].  Arrays and objects go through their string form. *)
Definition to_number (v : Value) : option float :=
  match v with
  | VUndef => Some nan
  | VNull => Some 0%float
  | VBool true => Some 1%float
  | VBool false => Some 0%float
  | VNum x => Some x
  | VStr s => Some (StringToNumber s)
  | VArr _ | VObj _ => s <- to_string v ;; Some (StringToNumber s)
  | VNative h => Some (native_to_number h)
  end.

End Coercions.

End JS.

(** ** A reference runtime

    StringToNumber on decimal, hexadecimal, octal and binary literals,
    correctly rounded; Number::toString (the shortest decimal that reads back
    as the number); ASCII case mapping; the UTC wall clock; the members of
    the prototypes and constructors of Object, Function, String, Array,
    Number and Boolean as ECMAScript 2024 lists them, by name.  It makes the
    model executable.  No general theorem below depends on it. *)

Module RefRuntime.
Import JS.

Definition is_space (c : ascii) : bool :=
  let n := nat_of_ascii c in
  (n =? 32)%nat || ((9 <=? n)%nat && (n <=? 13)%nat).

Fixpoint drop_spaces (l : list ascii) : list ascii :=
  match l with
  | c :: rest => if is_space c then drop_spaces rest else l
  | [] => []
  end.

Definition trim_spaces (l : list ascii) : list ascii :=
  rev (drop_spaces (rev (drop_spaces l))).

Fixpoint span_digits (l : list ascii) : list ascii * list ascii :=
  match l with
  | c :: rest =>
      if is_digit c
      then let (ds, tl) := span_digits rest in (c :: ds, tl)
      else ([], l)
  | [] => ([], [])
  end.

Definition is_nil {A : Type} (l : list A) : bool :=
  match l with [] => true | _ => false end.

(** The quotient of two positive integers, rounded to nearest even. *)
Definition round_ratio (neg : bool) (num den : positive) : float :=
  SF2Prim (let '(q, e, l) := SFdiv_core_binary prec emax (Zpos num) 0 (Zpos den) 0 in
           binary_round_aux prec emax neg q e l).

(** An integer, rounded to nearest even. *)
Definition round_integer (neg : bool) (z : Z) : float :=
  SF2Prim (binary_normalize prec emax (if neg then - z else z) 0 neg).

(** [m * 10^k] for [m >= 0], rounded to nearest even. *)
Definition decimal_to_float (neg : bool) (m k : Z) : float :=
  match m with
  | Zpos p =>
      if 0 <=? k then round_integer neg (m * 10 ^ k)
      else round_ratio neg p (Z.to_pos (10 ^ (- k)))
  | _ => if neg then (-0)%float else 0%float
  end.

(** ExponentPart, which must end the literal. *)
Definition parse_exponent (l : list ascii) : option Z :=
  match l with
  | [] => Some 0
  | c :: rest =>
      if Ascii.eqb c "e"%char || Ascii.eqb c "E"%char then
        let '(neg, ds) :=
          match rest with
          | s :: tl => if Ascii.eqb s "-"%char then (true, tl)
                       else if Ascii.eqb s "+"%char then (false, tl)
                       else (false, rest)
          | [] => (false, rest)
          end in
        if negb (is_nil ds) && forallb is_digit ds
        then Some (if neg then - digits_val ds 0 else digits_val ds 0)
        else None
      else None
  end.

(** StrUnsignedDecimalLiteral without [Infinity]: the digits as an integer
    and the power of ten. *)
Definition parse_unsigned_decimal (l : list ascii) : option (Z * Z) :=
  let (ip, rest) := span_digits l in
  let (fp, rest') :=
    match rest with
    | c :: tl => if Ascii.eqb c "."%char then span_digits tl else ([], rest)
    | [] => ([], rest)
    end in
  if is_nil ip && is_nil fp then None
  else
    e <- parse_exponent rest' ;;
    Some (digits_val (ip ++ fp) 0, e - Z.of_nat (List.length fp)).

Definition parse_unsigned (neg : bool) (l : list ascii) : float :=
  if String.eqb (string_of_list_ascii l) "Infinity"
  then (if neg then neg_infinity else infinity)
  else match parse_unsigned_decimal l with
       | Some (m, k) => decimal_to_float neg m k
       | None => nan
       end.

Definition radix_digit (c : ascii) : option Z :=
  let n := Z.of_nat (nat_of_ascii c) in
  if (48 <=? n) && (n <=? 57) then Some (n - 48)
  else if (97 <=? n) && (n <=? 102) then Some (n - 87)
  else if (65 <=? n) && (n <=? 70) then Some (n - 55)
  else None.

Fixpoint radix_val (radix : Z) (l : list ascii) (acc : Z) : option Z :=
  match l with
  | [] => Some acc
  | c :: rest =>
      d <- radix_digit c ;;
      if d <? radix then radix_val radix rest (radix * acc + d) else None
  end.

(** NonDecimalIntegerLiteral: 0x, 0o, 0b and at least one digit. *)
Definition parse_radix (l : list ascii) : option Z :=
  match l with
  | z :: p :: d :: ds =>
      if Ascii.eqb z "0"%char then
        if Ascii.eqb p "x"%char || Ascii.eqb p "X"%char then radix_val 16 (d :: ds) 0
        else if Ascii.eqb p "o"%char || Ascii.eqb p "O"%char then radix_val 8 (d :: ds) 0
        else if Ascii.eqb p "b"%char || Ascii.eqb p "B"%char then radix_val 2 (d :: ds) 0
        else None
      else None
  | _ => None
  end.

Definition ref_StringToNumber (s : string) : float :=
  let l := trim_spaces (list_ascii_of_string s) in
  match l with
  | [] => 0%float
  | c :: rest =>
      match parse_radix l with
      | Some z => round_integer false z
      | None =>
          if Ascii.eqb c "-"%char then parse_unsigned true rest
          else if Ascii.eqb c "+"%char then parse_unsigned false rest
          else parse_unsigned false l
      end
  end.

Definition digit_char (d : Z) : ascii := ascii_of_nat (48 + Z.to_nat d).

Fixpoint nat_digits (fuel : nat) (n : Z) (acc : string) : string :=
  match fuel with
  | O => acc
  | S f =>
      let acc' := String (digit_char (n mod 10)) acc in
      if n / 10 =? 0 then acc' else nat_digits f (n / 10) acc'
  end.

Definition Z_to_string (n : Z) : string :=
  let a := Z.abs n in
  let ds := nat_digits (S (Z.to_nat (Z.log2 a))) a "" in
  if n <? 0 then "-" ++ ds else ds.

Definition pow10 (e : Z) : Q :=
  if 0 <=? e then inject_Z (10 ^ e) else Qinv (inject_Z (10 ^ (- e))).

Fixpoint climb (fuel : nat) (v : Q) (p : Z) : Z :=
  match fuel with
  | O => p
  | S f => if Qle_bool (pow10 (p + 1)) v then climb f v (p + 1) else p
  end.

(** The integer part of the decimal logarithm of [v > 0]. *)
Definition log10_floor (v : Q) : Z :=
  climb 8 v ((Z.log2 (Qnum v) - Z.log2 (Zpos (Qden v))) * 30103 / 100000 - 2).

(** The decimal [d * 10^k] with the fewest digits (from [n] on, at most 17)
    that reads back as [f]; [v] is the value of [f > 0] and [p] its decimal
    exponent. *)
Fixpoint shortest (fuel : nat) (n : Z) (f : float) (v : Q) (p : Z) : Z * Z :=
  let k := p - n + 1 in
  let d := Qfloor (v * pow10 (- k) + (1 # 2))%Q in
  let '(d, k) := if d =? 10 ^ n then (d / 10, k + 1) else (d, k) in
  match fuel with
  | O => (d, k)
  | S fuel' =>
      if Leibniz.eqb (decimal_to_float false d k) f then (d, k)
      else shortest fuel' (n + 1) f v p
  end.

Fixpoint zeros (n : nat) : string :=
  match n with O => "" | S m => String "0"%char (zeros m) end.

(** The digits [ds] with the decimal point after [point] digits, as
    Number::toString lays them out. *)
Definition format_decimal (ds : string) (point : Z) : string :=
  let len := Z.of_nat (String.length ds) in
  if (len <=? point) && (point <=? 21) then ds ++ zeros (Z.to_nat (point - len))
  else if (0 <? point) && (point <=? 21) then
    substring 0 (Z.to_nat point) ds ++ "."
    ++ substring (Z.to_nat point) (Z.to_nat (len - point)) ds
  else if (-6 <? point) && (point <=? 0) then "0." ++ zeros (Z.to_nat (- point)) ++ ds
  else
    let e := point - 1 in
    let es := (if e <? 0 then "-" else "+") ++ Z_to_string (Z.abs e) in
    if len =? 1 then ds ++ "e" ++ es
    else substring 0 1 ds ++ "." ++ substring 1 (Z.to_nat (len - 1)) ds ++ "e" ++ es.

Definition ref_NumberToString (f : float) : string :=
  match Prim2SF f with
  | S754_nan => "NaN"
  | S754_zero _ => "0"
  | S754_infinity s => if s then "-Infinity" else "Infinity"
  | S754_finite s _ _ =>
      let a := abs f in
      let v := exact_value a in
      let '(d, k) := shortest 17 1 a v (log10_floor v) in
      let ds := Z_to_string d in
      let body := format_decimal ds (k + Z.of_nat (String.length ds)) in
      if s then "-" ++ body else body
  end.

Definition lower_char (c : ascii) : ascii :=
  let n := nat_of_ascii c in
  if (65 <=? n)%nat && (n <=? 90)%nat then ascii_of_nat (n + 32) else c.

Fixpoint ref_toLowerCase (s : string) : string :=
  match s with
  | EmptyString => EmptyString
  | String c rest => String (lower_char c) (ref_toLowerCase rest)
  end.

Definition ref_localTime (zone : string) (now : Z) : option (float * float) :=
  if String.eqb zone "UTC"
  then Some (binary64_of_nat (Z.to_nat ((now / 3600000) mod 24)),
             binary64_of_nat (Z.to_nat ((now / 60000) mod 60)))
  else None.

(** The methods of [K.prototype], each with the [length] of the function.
    A built-in is named by the path that leads to it from the global object:
    [["String"]], [["String"; "prototype"]], [["String"; "prototype"; "trim"]],
    [["Object"; "keys"]]. *)
Definition proto_methods (K : string) : list (string * Z) :=
  if String.eqb K "Object" then
    [("hasOwnProperty", 1); ("isPrototypeOf", 1); ("propertyIsEnumerable", 1);
     ("toLocaleString", 0); ("toString", 0); ("valueOf", 0);
     ("__defineGetter__", 2); ("__defineSetter__", 2);
     ("__lookupGetter__", 1); ("__lookupSetter__", 1)]
  else if String.eqb K "Function" then
    [("apply", 2); ("bind", 1); ("call", 1); ("toString", 0)]
  else if String.eqb K "String" then
    [("at", 1); ("charAt", 1); ("charCodeAt", 1); ("codePointAt", 1); ("concat", 1);
     ("endsWith", 1); ("includes", 1); ("indexOf", 1); ("isWellFormed", 0);
     ("lastIndexOf", 1); ("localeCompare", 1); ("match", 1); ("matchAll", 1);
     ("normalize", 0); ("padEnd", 1); ("padStart", 1); ("repeat", 1); ("replace", 2);
     ("replaceAll", 2); ("search", 1); ("slice", 2); ("split", 2); ("startsWith", 1);
     ("substr", 2); ("substring", 2); ("toLocaleLowerCase", 0);
     ("toLocaleUpperCase", 0); ("toLowerCase", 0); ("toString", 0);
     ("toUpperCase", 0); ("toWellFormed", 0); ("trim", 0); ("trimEnd", 0);
     ("trimStart", 0); ("trimLeft", 0); ("trimRight", 0); ("valueOf", 0);
     ("anchor", 1); ("big", 0); ("blink", 0); ("bold", 0); ("fixed", 0);
     ("fontcolor", 1); ("fontsize", 1); ("italics", 0); ("link", 1); ("small", 0);
     ("strike", 0); ("sub", 0); ("sup", 0)]
  else if String.eqb K "Array" then
    [("at", 1); ("concat", 1); ("copyWithin", 2); ("entries", 0); ("every", 1);
     ("fill", 1); ("filter", 1); ("find", 1); ("findIndex", 1); ("findLast", 1);
     ("findLastIndex", 1); ("flat", 0); ("flatMap", 1); ("forEach", 1);
     ("includes", 1); ("indexOf", 1); ("join", 1); ("keys", 0); ("lastIndexOf", 1);
     ("map", 1); ("pop", 0); ("push", 1); ("reduce", 1); ("reduceRight", 1);
     ("reverse", 0); ("shift", 0); ("slice", 2); ("some", 1); ("sort", 1);
     ("splice", 2); ("toLocaleString", 0); ("toReversed", 0); ("toSorted", 1);
     ("toSpliced", 2); ("toString", 0); ("unshift", 1); ("values", 0); ("with", 2)]
  else if String.eqb K "Number" then
    [("toExponential", 1); ("toFixed", 1); ("toLocaleString", 0);
     ("toPrecision", 1); ("toString", 1); ("valueOf", 0)]
  else if String.eqb K "Boolean" then
    [("toString", 0); ("valueOf", 0)]
  else [].

(** The functions that are properties of the constructor [K]. *)
Definition statics (K : string) : list (string * Z) :=
  if String.eqb K "Object" then
    [("assign", 2); ("create", 2); ("defineProperties", 2); ("defineProperty", 3);
     ("entries", 1); ("freeze", 1); ("fromEntries", 1);
     ("getOwnPropertyDescriptor", 2); ("getOwnPropertyDescriptors", 1);
     ("getOwnPropertyNames", 1); ("getOwnPropertySymbols", 1);
     ("getPrototypeOf", 1); ("groupBy", 2); ("hasOwn", 2); ("is", 2);
     ("isExtensible", 1); ("isFrozen", 1); ("isSealed", 1); ("keys", 1);
     ("preventExtensions", 1); ("seal", 1); ("setPrototypeOf", 2); ("values", 1)]
  else if String.eqb K "String" then
    [("fromCharCode", 1); ("fromCodePoint", 1); ("raw", 1)]
  else if String.eqb K "Array" then
    [("from", 1); ("isArray", 1); ("of", 0)]
  else if String.eqb K "Number" then
    [("isFinite", 1); ("isInteger", 1); ("isNaN", 1); ("isSafeInteger", 1);
     ("parseFloat", 1); ("parseInt", 2)]
  else [].

(** The numbers that are properties of the constructor Number. *)
Definition number_constants : list (string * float) :=
  [("EPSILON", 0x1p-52%float); ("MAX_SAFE_INTEGER", 9007199254740991%float);
   ("MAX_VALUE", 0x1.fffffffffffffp+1023%float);
   ("MIN_SAFE_INTEGER", (-9007199254740991)%float);
   ("MIN_VALUE", 0x1p-1074%float); ("NaN", nan);
   ("NEGATIVE_INFINITY", neg_infinity); ("POSITIVE_INFINITY", infinity)].

Definition kinds : list string :=
  ["Object"; "Function"; "String"; "Array"; "Number"; "Boolean"].

Fixpoint assoc {A : Type} (key : string) (l : list (string * A)) : option A :=
  match l with
  | [] => None
  | (k, v) :: rest => if String.eqb k key then Some v else assoc key rest
  end.

Definition is_member {A : Type} (key : string) (l : list (string * A)) : bool :=
  match assoc key l with Some _ => true | None => false end.

(** Every name the tables give to a built-in member. *)
Definition known_name (key : string) : bool :=
  existsb (String.eqb key)
          ["constructor"; "__proto__"; "prototype"; "name"; "length"; "caller";
           "arguments"]
  || existsb (fun K => is_member key (proto_methods K) || is_member key (statics K)) kinds
  || is_member key number_constants.

(** [key] read through [K.prototype] and then [Object.prototype]. *)
Definition from_prototype (K key : string) : Value :=
  if String.eqb key "constructor" then VNative [K]
  else if String.eqb key "__proto__" then VNative [K; "prototype"]
  else if is_member key (proto_methods K) then VNative [K; "prototype"; key]
  else if is_member key (proto_methods "Object")
       then VNative ["Object"; "prototype"; key]
  else VUndef.

(** The [length] of a built-in function. *)
Definition arity (h : list string) : Z :=
  match h with
  | [K; m] => match assoc m (statics K) with Some n => n | None => 0 end
  | [K; _; m] => match assoc m (proto_methods K) with Some n => n | None => 0 end
  | _ => 1
  end.

(** A read on the prototype object [K.prototype]. *)
Definition read_prototype (K key : string) : option Value :=
  if String.eqb key "constructor" then Some (VNative [K])
  else if String.eqb key "__proto__" then
    Some (if String.eqb K "Object" then VNull else VNative ["Object"; "prototype"])
  else if is_member key (proto_methods K) then Some (VNative [K; "prototype"; key])
  else if String.eqb K "Function"
          && (String.eqb key "caller" || String.eqb key "arguments") then None
  else if String.eqb K "Function" && String.eqb key "name" then Some (VStr "")
  else if (String.eqb K "Function" || String.eqb K "String" || String.eqb K "Array")
          && String.eqb key "length" then Some (VNum 0)
  else if is_member key (proto_methods "Object")
       then Some (VNative ["Object"; "prototype"; key])
  else Some VUndef.

(** A read on a built-in function. *)
Definition read_function (h : list string) (key : string) : option Value :=
  if String.eqb key "caller" || String.eqb key "arguments" then None
  else if String.eqb key "name" then Some (VStr (last h ""))
  else if String.eqb key "length" then Some (VNum (round_integer false (arity h)))
  else if String.eqb key "constructor" then Some (VNative ["Function"])
  else if String.eqb key "__proto__" then Some (VNative ["Function"; "prototype"])
  else
    match h with
    | [K] =>
        if String.eqb key "prototype" then Some (VNative [K; "prototype"])
        else if is_member key (statics K) then Some (VNative [K; key])
        else if String.eqb K "Number" && is_member key number_constants then
          match assoc key number_constants with
          | Some x => Some (VNum x)
          | None => Some VUndef
          end
        else Some (from_prototype "Function" key)
    | _ => Some (from_prototype "Function" key)
    end.

Definition ref_inherited (container : Value) (key : string) : option Value :=
  if negb (known_name key) then Some VUndef
  else
    match container with
    | VUndef | VNull => Some VUndef   (* never consulted: the read throws first *)
    | VBool _ => Some (from_prototype "Boolean" key)
    | VNum _ => Some (from_prototype "Number" key)
    | VStr _ => Some (from_prototype "String" key)
    | VArr _ => Some (from_prototype "Array" key)
    | VObj _ => Some (from_prototype "Object" key)
    | VNative [K; "prototype"] => read_prototype K key
    | VNative h => read_function h key
    end.

Definition is_prototype (h : list string) : bool :=
  match h with
  | [_; p] => String.eqb p "prototype"
  | _ => false
  end.

Definition ref_native_to_string (h : list string) : string :=
  if is_prototype h then
    match h with
    | K :: _ =>
        if String.eqb K "Object" then "[object Object]"
        else if String.eqb K "Function" then "function () { [native code] }"
        else if String.eqb K "Number" then "0"
        else if String.eqb K "Boolean" then "false"
        else ""
    | [] => ""
    end
  else "function " ++ last h "" ++ "() { [native code] }".

Definition ref_native_to_number (h : list string) : float :=
  if is_prototype h then
    match h with
    | K :: _ =>
        if String.eqb K "Object" || String.eqb K "Function" then nan else 0%float
    | [] => nan
    end
  else nan.

#[export] Instance ref_runtime : JSRuntime := {|
  StringToNumber := ref_StringToNumber;
  NumberToString := ref_NumberToString;
  toLowerCase := ref_toLowerCase;
  localTime := ref_localTime;
  inherited := ref_inherited;
  native_to_string := ref_native_to_string;
  native_to_number := ref_native_to_number
|}.

End RefRuntime.

(** ** models/NotificationRule.js *)

Module Rule.
Import JS.

Inductive EventType : Type :=
| form_submitted | rating_low | rating_high | complaint | compliment
| staff_mentioned | custom.

Inductive ActionType : Type :=
| act_email | act_sms | act_slack | act_webhook | act_push.

Inductive RecipientType : Type :=
| rcp_email | rcp_phone | rcp_slack_user | rcp_webhook_url.

Inductive Priority : Type := low | normal | high | urgent.

Inductive Frequency : Type := immediate | hourly | daily | weekly.

(** conditionSchema.  The operator is kept as the string the code switches
    on: a document written without validation can hold any. *)
Record Condition : Type := {
  c_field : string;
  c_operator : string;
  c_value : Value
}.

Record Recipient : Type := {
  r_type : RecipientType;
  r_value : string
}.

Record ActionSettings : Type := {
  as_priority : Priority;
  as_delay : Z;           (* minutes *)
  as_retryAttempts : Z;
  as_retryDelay : Z       (* minutes *)
}.

(** actionSchema *)
Record Action : Type := {
  a_type : ActionType;
  a_template : string;
  a_recipients : list Recipient;
  a_settings : ActionSettings
}.

Record TimeWindow : Type := {
  tw_start : option string;   (* HH:MM, [None] when unset *)
  tw_end : option string;
  tw_timezone : string
}.

Record Settings : Type := {
  isActive : bool;
  s_priority : Z;
  cooldown : Z;               (* minutes between notifications *)
  timeWindow : TimeWindow;
  frequency : Frequency
}.

Record Statistics : Type := {
  totalTriggered : Z;
  totalSent : Z;
  totalFailed : Z;
  lastTriggered : option Z    (* a Date, [None] for null *)
}.

(** notificationRuleSchema *)
Record NotificationRule : Type := {
  _id : string;
  name : string;
  description : string;
  businessId : string;
  franchiseId : option string;
  eventType : EventType;
  conditions : list Condition;
  actions : list Action;
  settings : Settings;
  statistics : Statistics;
  createdAt : Z;
  updatedAt : Z
}.

(** [array.reduce(f, init)] with a callback that may throw. *)
Fixpoint reduce {A B : Type} (f : B -> A -> option B) (l : list A) (init : B)
  : option B :=
  match l with
  | [] => Some init
  | x :: rest => b <- f init x ;; reduce f rest b
  end.

(** [array.every(f)]: stops at the first false. *)
Fixpoint every {A : Type} (f : A -> option bool) (l : list A) : option bool :=
  match l with
  | [] => Some true
  | x :: rest => b <- f x ;; if b then every f rest else Some false
  end.

Section WithRuntime.
Context {RT : JSRuntime}.

(** The callback of getNestedValue:
    [current && current[key] !== undefined ? current[key] : null]. *)
Definition descend (current : Value) (key : string) : option Value :=
  if truthy current then
    v <- get_prop current key ;;
    if negb (is_undefined v) then Some v else Some VNull
  else Some VNull.

Definition getNestedValue (obj : Value) (path : string) : option Value :=
  reduce descend (split "."%char path) obj.

(** No member that a JSON value inherits goes by the name [key]: read where
    it is not an own property, it is undefined. *)
Definition unclaimed (key : string) : Prop :=
  forall container, json container = true -> inherited container key = Some VUndef.

(** The body of the callback of evaluateConditions: one condition. *)
Definition evaluateCondition (data : Value) (condition : Condition) : option bool :=
  fieldValue <- getNestedValue data (c_field condition) ;;
  let op := c_operator condition in
  let value := c_value condition in
  if String.eqb op "equals" then
    Some (strict_equals fieldValue value)
  else if String.eqb op "not_equals" then
    Some (negb (strict_equals fieldValue value))
  else if String.eqb op "greater_than" then
    a <- to_number fieldValue ;; b <- to_number value ;; Some (num_gt a b)
  else if String.eqb op "less_than" then
    a <- to_number fieldValue ;; b <- to_number value ;; Some (num_lt a b)
  else if String.eqb op "contains" then
    s <- to_string fieldValue ;; t <- to_string value ;;
    Some (includes (toLowerCase s) (toLowerCase t))
  else if String.eqb op "not_contains" then
    s <- to_string fieldValue ;; t <- to_string value ;;
    Some (negb (includes (toLowerCase s) (toLowerCase t)))
  else if String.eqb op "in" then
    Some (match value with
          | VArr elems => array_includes elems fieldValue
          | _ => false
          end)
  else if String.eqb op "not_in" then
    Some (match value with
          | VArr elems => negb (array_includes elems fieldValue)
          | _ => false
          end)
  else Some false.

Definition evaluateConditions (rule : NotificationRule) (data : Value) : option bool :=
  every (evaluateCondition data) (conditions rule).

(** [timeString.split(':').map(Number)], then [hours * 60 + minutes];
    a missing second part is [undefined], hence NaN. *)
Definition parseTime (timeString : string) : float :=
  match map StringToNumber (split ":"%char timeString) with
  | hours :: minutes :: _ => (hours * 60 + minutes)%float
  | [hours] => (hours * 60 + nan)%float
  | [] => nan
  end.

(** [!s] for an optional string. *)
Definition unset (s : option string) : bool :=
  match s with
  | None => true
  | Some t => String.eqb t ""
  end.

Definition text (s : option string) : string :=
  match s with Some t => t | None => "" end.

Definition isInTimeWindow (now : Z) (rule : NotificationRule) : option bool :=
  let tw := timeWindow (settings rule) in
  if unset (tw_start tw) || unset (tw_end tw) then Some true
  else
    let timezone := if String.eqb (tw_timezone tw) "" then "UTC" else tw_timezone tw in
    hm <- localTime timezone now ;;
    let currentTime := (fst hm * 60 + snd hm)%float in
    let startTime := parseTime (text (tw_start tw)) in
    let endTime := parseTime (text (tw_end tw)) in
    if num_le startTime endTime
    then Some (num_ge currentTime startTime && num_le currentTime endTime)
    else Some (num_ge currentTime startTime || num_le currentTime endTime).

Definition shouldTrigger (now : Z) (rule : NotificationRule) (data : Value) : option bool :=
  if negb (isActive (settings rule)) then Some false
  else
    inWindow <- isInTimeWindow now rule ;;
    if negb inWindow then Some false
    else
      let cooling :=
        match lastTriggered (statistics rule) with
        | Some last =>
            (0 <? cooldown (settings rule))
            && (now - last <? cooldown (settings rule) * 60 * 1000)
        | None => false
        end in
      if cooling then Some false else evaluateConditions rule data.

End WithRuntime.

Definition set_statistics (rule : NotificationRule) (st : Statistics) (now : Z)
  : NotificationRule :=
  {| _id := _id rule; name := name rule; description := description rule;
     businessId := businessId rule; franchiseId := franchiseId rule;
     eventType := eventType rule; conditions := conditions rule;
     actions := actions rule; settings := settings rule;
     statistics := st; createdAt := createdAt rule; updatedAt := now |}.

(** The names of the operator's enum. *)
Definition operators : list string :=
  ["equals"; "not_equals"; "greater_than"; "less_than"; "contains";
   "not_contains"; "in"; "not_in"].

(** The validation [save] runs on a rule document, for the validators a
    stored document can fail: the required texts (not empty), the required
    condition value (neither null nor undefined), the enum of the operator
    and the two maximal lengths.  The other enums are types here. *)
Definition validates (rule : NotificationRule) : bool :=
  negb (String.eqb (name rule) "")
  && (String.length (name rule) <=? 100)%nat
  && (String.length (description rule) <=? 500)%nat
  && forallb (fun c =>
                negb (String.eqb (c_field c) "")
                && existsb (String.eqb (c_operator c)) operators
                && match c_value c with
                   | VUndef | VNull => false
                   | _ => true
                   end)
             (conditions rule)
  && forallb (fun a =>
                negb (String.eqb (a_template a) "")
                && forallb (fun r => negb (String.eqb (r_value r) "")) (a_recipients a))
             (actions rule).

(** updateStatistics, with the pre-save hook that stamps [updatedAt]: the
    document as its [save] writes it.  The save is refused when the document
    does not validate. *)
Definition updateStatistics (now : Z) (success : bool) (rule : NotificationRule)
  : NotificationRule :=
  let st := statistics rule in
  set_statistics rule
    {| totalTriggered := totalTriggered st + 1;
       totalSent := if success then totalSent st + 1 else totalSent st;
       totalFailed := if success then totalFailed st else totalFailed st + 1;
       lastTriggered := Some now |}
    now.

End Rule.

(** ** models/Notification.js *)

Module Notification.
Import JS.
Import Rule.

Inductive RecipientStatus : Type :=
| rs_pending | rs_sent | rs_failed | rs_delivered | rs_bounced.

Inductive Status : Type :=
| st_pending | st_processing | st_sent | st_failed | st_cancelled.

(** One entry of [recipients]. *)
Record RecipientEntry : Type := {
  rc_type : RecipientType;
  rc_value : string;
  rc_status : RecipientStatus;
  rc_sentAt : option Z;
  rc_error : option string;
  rc_retryCount : Z
}.

Record Content : Type := {
  subject : option string;
  body : option string;
  template : option string;
  variables : Value
}.

Record Metadata : Type := {
  ipAddress : option string;
  userAgent : option string;
  source : option string;
  tags : list string
}.

(** notificationSchema *)
Record Notification : Type := {
  ruleId : string;
  n_businessId : string;
  n_franchiseId : option string;
  n_eventType : EventType;
  triggerData : Value;
  recipients : list RecipientEntry;
  content : Content;
  status : Status;
  priority : Priority;
  scheduledFor : Z;
  sentAt : option Z;
  failedAt : option Z;
  error : option string;
  retryCount : Z;
  maxRetries : Z;
  metadata : Metadata;
  n_createdAt : Z;
  n_updatedAt : Z
}.

Definition is_pending (s : RecipientStatus) : bool :=
  match s with rs_pending => true | _ => false end.

Definition is_failed (s : RecipientStatus) : bool :=
  match s with rs_failed => true | _ => false end.

(** [['sent', 'delivered'].includes(status)] *)
Definition is_successful (s : RecipientStatus) : bool :=
  match s with rs_sent | rs_delivered => true | _ => false end.

(** The callback of markAsSent's forEach. *)
Definition send_recipient (now : Z) (recipient : RecipientEntry) : RecipientEntry :=
  if is_pending (rc_status recipient) then
    {| rc_type := rc_type recipient; rc_value := rc_value recipient;
       rc_status := rs_sent; rc_sentAt := Some now;
       rc_error := rc_error recipient; rc_retryCount := rc_retryCount recipient |}
  else recipient.

(** The callback of markAsFailed's forEach. *)
Definition fail_recipient (err : string) (recipient : RecipientEntry) : RecipientEntry :=
  if is_pending (rc_status recipient) then
    {| rc_type := rc_type recipient; rc_value := rc_value recipient;
       rc_status := rs_failed; rc_sentAt := rc_sentAt recipient;
       rc_error := Some err; rc_retryCount := rc_retryCount recipient |}
  else recipient.

(** The callback of incrementRetry's forEach. *)
Definition retry_recipient (recipient : RecipientEntry) : RecipientEntry :=
  if is_failed (rc_status recipient) then
    {| rc_type := rc_type recipient; rc_value := rc_value recipient;
       rc_status := rc_status recipient; rc_sentAt := rc_sentAt recipient;
       rc_error := rc_error recipient; rc_retryCount := rc_retryCount recipient + 1 |}
  else recipient.

(** [this.recipients.forEach(f)] where [f] updates the entry it is given. *)
Definition forEach (f : RecipientEntry -> RecipientEntry) (l : list RecipientEntry)
  : list RecipientEntry :=
  fold_left (fun done recipient => (done ++ [f recipient])%list) l [].

(** Every method ends in [this.save()], whose pre-save hook stamps
    [updatedAt]; the write itself is taken to succeed. *)
Definition markAsSent (now : Z) (n : Notification) : Notification :=
  {| ruleId := ruleId n; n_businessId := n_businessId n;
     n_franchiseId := n_franchiseId n; n_eventType := n_eventType n;
     triggerData := triggerData n;
     recipients := forEach (send_recipient now) (recipients n);
     content := content n;
     status := st_sent;
     priority := priority n; scheduledFor := scheduledFor n;
     sentAt := Some now;
     failedAt := failedAt n; error := error n;
     retryCount := retryCount n; maxRetries := maxRetries n;
     metadata := metadata n; n_createdAt := n_createdAt n; n_updatedAt := now |}.

Definition markAsFailed (now : Z) (err : string) (n : Notification) : Notification :=
  {| ruleId := ruleId n; n_businessId := n_businessId n;
     n_franchiseId := n_franchiseId n; n_eventType := n_eventType n;
     triggerData := triggerData n;
     recipients := forEach (fail_recipient err) (recipients n);
     content := content n;
     status := st_failed;
     priority := priority n; scheduledFor := scheduledFor n;
     sentAt := sentAt n;
     failedAt := Some now; error := Some err;
     retryCount := retryCount n; maxRetries := maxRetries n;
     metadata := metadata n; n_createdAt := n_createdAt n; n_updatedAt := now |}.

Definition incrementRetry (now : Z) (n : Notification) : Notification :=
  {| ruleId := ruleId n; n_businessId := n_businessId n;
     n_franchiseId := n_franchiseId n; n_eventType := n_eventType n;
     triggerData := triggerData n;
     recipients := forEach retry_recipient (recipients n);
     content := content n;
     status := status n;
     priority := priority n; scheduledFor := scheduledFor n;
     sentAt := sentAt n;
     failedAt := failedAt n; error := error n;
     retryCount := retryCount n + 1; maxRetries := maxRetries n;
     metadata := metadata n; n_createdAt := n_createdAt n; n_updatedAt := now |}.

Definition canRetry (n : Notification) : bool :=
  (retryCount n <? maxRetries n)
  && match status n with st_failed => true | _ => false end.

(** getSuccessRate: a percentage. *)
Definition getSuccessRate (n : Notification) : float :=
  let totalRecipients := List.length (recipients n) in
  if (totalRecipients =? 0)%nat then 0%float
  else
    let successfulRecipients :=
      List.length (filter (fun r => is_successful (rc_status r)) (recipients n)) in
    (binary64_of_nat successfulRecipients / binary64_of_nat totalRecipients * 100)%float.

End Notification.

(** ** src/index.js: POST /api/notifications/trigger *)

Module Service.
Import JS.
Import Rule.
Import Notification.

(** The body of the request, already typed as the query needs it. *)
Record TriggerRequest : Type := {
  req_businessId : string;
  req_eventType : EventType;
  req_triggerData : Value
}.

Definition eventType_eqb (a b : EventType) : bool :=
  match a, b with
  | form_submitted, form_submitted | rating_low, rating_low
  | rating_high, rating_high | complaint, complaint
  | compliment, compliment | staff_mentioned, staff_mentioned
  | custom, custom => true
  | _, _ => false
  end.

(** [NotificationRule.find({businessId, eventType, 'settings.isActive': true})] *)
Definition find (collection : list NotificationRule) (req : TriggerRequest)
  : list NotificationRule :=
  filter (fun rule =>
            String.eqb (businessId rule) (req_businessId req)
            && eventType_eqb (eventType rule) (req_eventType req)
            && isActive (settings rule))
         collection.

(** [rule.actions[0]?.template || fallback] *)
Definition template_or (first : option Action) (fallback : string) : string :=
  match first with
  | Some action => if String.eqb (a_template action) "" then fallback else a_template action
  | None => fallback
  end.

(** The entry the schema makes of [{type, value, status: 'pending'}]. *)
Definition new_recipient (recipient : Recipient) : RecipientEntry :=
  {| rc_type := r_type recipient; rc_value := r_value recipient;
     rc_status := rs_pending; rc_sentAt := None; rc_error := None;
     rc_retryCount := 0 |}.

(** [new Notification({...})] of the handler, schema defaults filled in. *)
Definition newNotification (now : Z) (rule : NotificationRule) (data : Value)
  : Notification :=
  let first := hd_error (actions rule) in
  {| ruleId := _id rule;
     n_businessId := businessId rule;
     n_franchiseId := franchiseId rule;
     n_eventType := eventType rule;
     triggerData := data;
     recipients :=
       flat_map (fun action => map new_recipient (a_recipients action)) (actions rule);
     content :=
       {| subject := Some (template_or first "Notification");
          body := Some (template_or first "You have a new notification");
          template := Some (template_or first "default");
          variables := data |};
     status := st_pending;
     priority := match first with
                 | Some action => as_priority (a_settings action)
                 | None => normal
                 end;
     scheduledFor :=
       now + match first with
             | Some action => as_delay (a_settings action)
             | None => 0
             end * 60000;
     sentAt := None; failedAt := None; error := None;
     retryCount := 0; maxRetries := 3;
     metadata := {| ipAddress := None; userAgent := None; source := None; tags := [] |};
     n_createdAt := now; n_updatedAt := now |}.

(** The validation [notification.save()] runs on the fields the handler
    fills from its inputs: [triggerData] is required (neither null nor
    undefined) and so is the value of every recipient (not empty). *)
Definition valid (n : Notification) : bool :=
  match triggerData n with
  | VUndef | VNull => false
  | _ => forallb (fun r => negb (String.eqb (rc_value r) "")) (recipients n)
  end.

(** What one run of the loop leaves behind: the rule documents as stored, the
    notifications saved and pushed, and whether the loop reached its end
    ([false]: an exception or a refused save left it for the catch block). *)
Record LoopResult : Type := {
  lr_rules : list NotificationRule;
  lr_triggered : list Notification;
  lr_completed : bool
}.

Section WithRuntime.
Context {RT : JSRuntime}.

(** [for (const rule of rules) { ... }] *)
Fixpoint run_rules (now : Z) (data : Value) (rules : list NotificationRule)
         (triggered : list Notification) : LoopResult :=
  match rules with
  | [] => {| lr_rules := []; lr_triggered := triggered; lr_completed := true |}
  | rule :: rest =>
      match shouldTrigger now rule data with
      | None =>
          {| lr_rules := rule :: rest; lr_triggered := triggered;
             lr_completed := false |}
      | Some false =>
          let r := run_rules now data rest triggered in
          {| lr_rules := rule :: lr_rules r; lr_triggered := lr_triggered r;
             lr_completed := lr_completed r |}
      | Some true =>
          let notification := newNotification now rule data in
          if valid notification then
            (* notification.save() went through; rule.updateStatistics(true) *)
            if validates (updateStatistics now true rule) then
              let r := run_rules now data rest (triggered ++ [notification])%list in
              {| lr_rules := updateStatistics now true rule :: lr_rules r;
                 lr_triggered := lr_triggered r;
                 lr_completed := lr_completed r |}
            else
              {| lr_rules := rule :: rest;
                 lr_triggered := (triggered ++ [notification])%list;
                 lr_completed := false |}
          else
            {| lr_rules := rule :: rest; lr_triggered := triggered;
               lr_completed := false |}
      end
  end.

(** The rule passes its gate and its conditions. *)
Definition fires (now : Z) (data : Value) (rule : NotificationRule) : bool :=
  match shouldTrigger now rule data with
  | Some true => true
  | _ => false
  end.

Inductive Response : Type :=
| Success (data : list Notification) (count : nat)
| Failure (message : string).

Record Outcome : Type := {
  response : Response;
  rules_after : list NotificationRule;   (* the documents [find] returned *)
  saved : list Notification              (* the notifications written *)
}.

(** The handler.  All clock readings of one request are taken at [now]. *)
Definition trigger (now : Z) (collection : list NotificationRule)
           (req : TriggerRequest) : Outcome :=
  let rules := find collection req in
  let r := run_rules now (req_triggerData req) rules [] in
  {| response := if lr_completed r
                 then Success (lr_triggered r) (List.length (lr_triggered r))
                 else Failure "Failed to trigger notifications";
     rules_after := lr_rules r;
     saved := lr_triggered r |}.

End WithRuntime.

End Service.

(** ** models/Notification.js: the static queries

    A collection is the list of its documents.  [populate('ruleId')], which
    only joins the rule document into each result, is left out: the results
    carry the rule's id as stored. *)

Module Statics.
Import JS.
Import Rule.
Import Notification.

(** The stored text of a priority. *)
Definition priority_text (p : Priority) : string :=
  match p with
  | low => "low"
  | normal => "normal"
  | high => "high"
  | urgent => "urgent"
  end.

(** [.sort(spec)]: [before a b] says that the sort specification lets [a]
    stand in front of [b].  Documents that the specification does not tell
    apart keep the order of the collection; the database leaves their order
    open, and no property below depends on it. *)
Fixpoint insert_sorted {A : Type} (before : A -> A -> bool) (x : A) (l : list A)
  : list A :=
  match l with
  | [] => [x]
  | y :: rest => if before x y then x :: l else y :: insert_sorted before x rest
  end.

Definition sort {A : Type} (before : A -> A -> bool) (l : list A) : list A :=
  fold_right (insert_sorted before) [] l.

(** [.limit(n)]: a limit of 0 is no limit; the parameter defaults to 100. *)
Definition limit {A : Type} (n : option nat) (l : list A) : list A :=
  match n with
  | None => firstn 100 l
  | Some O => l
  | Some k => firstn k l
  end.

(** [{status: 'pending', scheduledFor: {$lte: new Date()}}] *)
Definition pending_due (now : Z) (n : Notification) : bool :=
  match status n with st_pending => true | _ => false end
  && (scheduledFor n <=? now).

(** [{priority: -1, scheduledFor: 1}]: the priority is a string field, so it
    is ordered as text, descending; then the earlier date first. *)
Definition priority_then_schedule (a b : Notification) : bool :=
  match String.compare (priority_text (priority a)) (priority_text (priority b)) with
  | Gt => true
  | Lt => false
  | Eq => scheduledFor a <=? scheduledFor b
  end.

Definition getPendingNotifications (now : Z) (collection : list Notification)
           (n : option nat) : list Notification :=
  limit n (sort priority_then_schedule (filter (pending_due now) collection)).

(** [{status: 'failed', retryCount: {$lt: 3}}] *)
Definition failed_retryable (n : Notification) : bool :=
  match status n with st_failed => true | _ => false end
  && (retryCount n <? 3).

(** [{failedAt: 1}]: ascending, null before every date. *)
Definition failedAt_ascending (a b : Notification) : bool :=
  match failedAt a, failedAt b with
  | None, _ => true
  | Some _, None => false
  | Some x, Some y => x <=? y
  end.

Definition getFailedNotifications (collection : list Notification) (n : option nat)
  : list Notification :=
  limit n (sort failedAt_ascending (filter failed_retryable collection)).

Definition status_eqb (a b : Status) : bool :=
  match a, b with
  | st_pending, st_pending | st_processing, st_processing | st_sent, st_sent
  | st_failed, st_failed | st_cancelled, st_cancelled => true
  | _, _ => false
  end.

(** The [$match] stage of getNotificationStats.  [businessId] is the id as
    stored; the dates are [None] when not given, and the range applies only
    when both are. *)
Definition stats_match (business : string) (startDate endDate : option Z)
           (n : Notification) : bool :=
  String.eqb (n_businessId n) business
  && match startDate, endDate with
     | Some s, Some e => (s <=? n_createdAt n) && (n_createdAt n <=? e)
     | _, _ => true
     end.

(** One document of the [$group] stage. *)
Record StatusGroup : Type := {
  g_id : Status;
  g_count : nat;
  g_totalRecipients : nat;
  g_successfulRecipients : nat
}.

Definition sum (l : list nat) : nat := fold_left Nat.add l O.

Definition group_of (st : Status) (docs : list Notification) : StatusGroup :=
  let members := filter (fun n => status_eqb (status n) st) docs in
  {| g_id := st;
     g_count := sum (map (fun _ => 1%nat) members);
     g_totalRecipients := sum (map (fun n => List.length (recipients n)) members);
     g_successfulRecipients :=
       sum (map (fun n => List.length (filter (fun r => is_successful (rc_status r))
                                              (recipients n)))
                members) |}.

(** One group per status that occurs among the matched documents; the groups
    come in no particular order, here in the order of the enumeration. *)
Definition getNotificationStats (collection : list Notification) (business : string)
           (startDate endDate : option Z) : list StatusGroup :=
  let docs := filter (stats_match business startDate endDate) collection in
  map (fun st => group_of st docs)
      (filter (fun st => existsb (fun n => status_eqb (status n) st) docs)
              [st_pending; st_processing; st_sent; st_failed; st_cancelled]).

End Statics.

(** ** Sample documents and specification-side vocabulary *)

Module Samples.
Import JS Rule Notification Service.

(** The operators that convert their operands. *)
Definition coercing : list string :=
  ["greater_than"; "less_than"; "contains"; "not_contains"]%string.

(** The place of a priority when the stored texts are put in descending
    order: "urgent" > "normal" > "low" > "high". *)
Definition text_order (p : Priority) : nat :=
  match p with
  | urgent => 0
  | normal => 1
  | low => 2
  | high => 3
  end.

(** The number of statuses that are [sent] or [delivered]. *)
Fixpoint sent_or_delivered (l : list RecipientStatus) : nat :=
  match l with
  | [] => O
  | rs_sent :: rest | rs_delivered :: rest => S (sent_or_delivered rest)
  | _ :: rest => sent_or_delivered rest
  end.

Definition entry (address : string) (st : RecipientStatus) (retries : Z)
  : RecipientEntry :=
  {| rc_type := rcp_email; rc_value := address; rc_status := st;
     rc_sentAt := None; rc_error := None; rc_retryCount := retries |}.

(** A notification of rule "r1" with the given recipients. *)
Definition notification_with (entries : list RecipientEntry) : Notification :=
  {| ruleId := "r1"; n_businessId := "B1"; n_franchiseId := None;
     n_eventType := rating_low;
     triggerData := VObj [("rating", VNum 1)];
     recipients := entries;
     content := {| subject := Some "Low rating"; body := Some "Low rating";
                   template := Some "Low rating";
                   variables := VObj [("rating", VNum 1)] |};
     status := st_pending; priority := normal; scheduledFor := 0;
     sentAt := None; failedAt := None; error := None;
     retryCount := 0; maxRetries := 3;
     metadata := {| ipAddress := None; userAgent := None; source := None; tags := [] |};
     n_createdAt := 0; n_updatedAt := 0 |}.

Definition settings_with (active : bool) (start end_ : option string) : Settings :=
  {| isActive := active; s_priority := 0; cooldown := 0;
     timeWindow := {| tw_start := start; tw_end := end_; tw_timezone := "UTC" |};
     frequency := immediate |}.

Definition email_action (text address : string) : Action :=
  {| a_type := act_email; a_template := text;
     a_recipients := [{| r_type := rcp_email; r_value := address |}];
     a_settings := {| as_priority := high; as_delay := 5;
                      as_retryAttempts := 3; as_retryDelay := 5 |} |}.

Definition sms_action (text number : string) : Action :=
  {| a_type := act_sms; a_template := text;
     a_recipients := [{| r_type := rcp_phone; r_value := number |}];
     a_settings := {| as_priority := urgent; as_delay := 0;
                      as_retryAttempts := 3; as_retryDelay := 5 |} |}.

(** A rule of business "B1" for the event rating_low that has never fired. *)
Definition rule_with (id : string) (st : Settings) (conds : list Condition)
           (acts : list Action) : NotificationRule :=
  {| _id := id; name := "Low rating alert"; description := "";
     businessId := "B1"; franchiseId := None; eventType := rating_low;
     conditions := conds; actions := acts; settings := st;
     statistics := {| totalTriggered := 0; totalSent := 0; totalFailed := 0;
                      lastTriggered := None |};
     createdAt := 0; updatedAt := 0 |}.

Definition rating_below_3 : Condition :=
  {| c_field := "rating"; c_operator := "less_than"; c_value := VNum 3 |}.

(** The event [{businessId: "B1", eventType: "rating_low", {rating: 1}}]. *)
Definition low_rating_event : TriggerRequest :=
  {| req_businessId := "B1"; req_eventType := rating_low;
     req_triggerData := VObj [("rating", VNum 1)] |}.

(** A rule open from 22:00 to 06:00. *)
Definition night_rule : NotificationRule :=
  rule_with "r-night" (settings_with true (Some "22:00") (Some "06:00")) [] [].

(** One rule, two actions: an e-mail and a text message. *)
Definition two_action_rule : NotificationRule :=
  rule_with "r2" (settings_with true None None) [rating_below_3]
            [email_action "Low rating" "ops@x.io"; sms_action "Call back" "+15550100"].

(** Milliseconds since midnight UTC of day 0. *)
Definition at_time (hours minutes : Z) : Z := hours * 3600000 + minutes * 60000.

End Samples.

(** * Properties *)

Import JS RefRuntime Rule Notification Service Statics Samples.

Local Open Scope list_scope.

(** ** Field resolution *)

Section Resolution.
Context {RT : JSRuntime}.

(** Once null, null to the end of the path. *)
Lemma reduce_descend_null (keys : list string) :
  reduce descend keys VNull = Some VNull.
Proof. induction keys as [|key keys IH]; simpl; [reflexivity | exact IH]. Qed.

Lemma reduce_app {A B : Type} (f : B -> A -> option B) (l1 l2 : list A) :
  forall init, reduce f (l1 ++ l2) init = (b <- reduce f l1 init ;; reduce f l2 b).
Proof.
  induction l1 as [|x l1 IH]; intros init; simpl; [reflexivity|].
  destruct (f init x) as [b|]; simpl; [apply IH | reflexivity].
Qed.

Lemma reduce_descend_at (pre post : list string) (key : string) (obj current : Value) :
  reduce descend pre obj = Some current ->
  reduce descend (pre ++ key :: post) obj
  = (v <- descend current key ;; reduce descend post v).
Proof. intros Hpre. rewrite reduce_app, Hpre. reflexivity. Qed.

(** On a JSON value, a key that no inherited member goes by is read from
    the own properties alone, and the read does not throw. *)
Lemma get_prop_unclaimed (v : Value) (key : string) :
  unclaimed key -> json v = true -> truthy v = true ->
  get_prop v key = Some (match own_prop v key with Some r => r | None => VUndef end).
Proof.
  intros Hkey Hj Ht. unfold get_prop.
  destruct v; try discriminate Ht; destruct (own_prop _ key); try reflexivity;
    now apply Hkey.
Qed.

Lemma lookup_json (key : string) (props : list (string * Value)) (v : Value) :
  forallb (fun kv => json (snd kv)) props = true ->
  lookup key props = Some v -> json v = true.
Proof.
  induction props as [|[k w] props IH]; simpl; [discriminate|].
  intros H. apply andb_true_iff in H as [Hw Hrest].
  destruct (String.eqb k key); [now intros [= <-] | now apply IH].
Qed.

(** The own properties of a JSON value are JSON values. *)
Lemma own_prop_json (container v : Value) (key : string) :
  json container = true -> own_prop container key = Some v -> json v = true.
Proof.
  destruct container as [| |b|q|s|elems|props|h]; simpl; try discriminate.
  - intros _. destruct (String.eqb key "length"); [now intros [= <-]|].
    destruct (array_index key) as [i|]; [|discriminate].
    destruct (char_at s i); [now intros [= <-] | discriminate].
  - intros H. destruct (String.eqb key "length"); [now intros [= <-]|].
    destruct (array_index key) as [i|]; [|discriminate].
    intros Hi. rewrite forallb_forall in H. apply H. eapply nth_error_In. exact Hi.
  - apply lookup_json.
Qed.

(** Resolution in a JSON value does not throw along a path of such keys, and
    stays in the value. *)
Lemma reduce_descend_unclaimed (keys : list string) :
  Forall unclaimed keys ->
  forall current,
    json current = true ->
    exists v, reduce descend keys current = Some v /\ json v = true.
Proof.
  induction 1 as [|key keys Hkey _ IH]; intros current Hj; simpl.
  - now exists current.
  - unfold descend at 1. destruct (truthy current) eqn:Ht.
    + rewrite (get_prop_unclaimed current key Hkey Hj Ht). simpl.
      destruct (own_prop current key) as [r|] eqn:Hr.
      * destruct (is_undefined r); simpl; apply IH;
          [reflexivity | exact (own_prop_json _ _ _ Hj Hr)].
      * simpl. now apply IH.
    + simpl. now apply IH.
Qed.

End Resolution.

(** C3, as the code has it.  Resolution folds property reads over the
    dot-separated segments.  The value is null as soon as the value reached
    so far is falsy (null, undefined, false, 0, the empty string) or the
    segment reads as undefined in it; an object that has the segment hands
    over the property's value.  The container is not required to be a
    mapping: on a string, [length] resolves to the number of its characters.
    A read that throws makes the resolution throw. *)
Theorem getNestedValue_resolution {RT : JSRuntime} (obj : Value) (path : string) :
  (forall pre key post current,
     split "."%char path = pre ++ key :: post ->
     reduce descend pre obj = Some current ->
     truthy current = false \/ get_prop current key = Some VUndef ->
     getNestedValue obj path = Some VNull)
  /\ (forall pre key post props v,
        split "."%char path = pre ++ key :: post ->
        reduce descend pre obj = Some (VObj props) ->
        lookup key props = Some v ->
        is_undefined v = false ->
        getNestedValue obj path = reduce descend post v)
  /\ (forall pre post s,
        split "."%char path = pre ++ "length" :: post ->
        reduce descend pre obj = Some (VStr s) ->
        s <> "" ->
        getNestedValue obj path
        = reduce descend post (VNum (binary64_of_nat (String.length s))))
  /\ (forall pre key post current,
        split "."%char path = pre ++ key :: post ->
        reduce descend pre obj = Some current ->
        truthy current = true ->
        get_prop current key = None ->
        getNestedValue obj path = None).
Proof.
  unfold getNestedValue. split; [|split; [|split]].
  - intros pre key post current Hsplit Hpre Hcase.
    rewrite Hsplit, (reduce_descend_at _ _ _ _ _ Hpre).
    unfold descend. destruct Hcase as [Hf | Hu].
    + rewrite Hf. simpl. apply reduce_descend_null.
    + destruct (truthy current); simpl; [rewrite Hu; simpl|]; apply reduce_descend_null.
  - intros pre key post props v Hsplit Hpre Hlook Hdef.
    rewrite Hsplit, (reduce_descend_at _ _ _ _ _ Hpre).
    unfold descend, get_prop. simpl. rewrite Hlook. simpl. rewrite Hdef. reflexivity.
  - intros pre post s Hsplit Hpre Hne.
    rewrite Hsplit, (reduce_descend_at _ _ _ _ _ Hpre).
    unfold descend, get_prop. simpl.
    destruct (String.eqb s "") eqn:He; [apply String.eqb_eq in He; contradiction|].
    reflexivity.
  - intros pre key post current Hsplit Hpre Ht Hthrow.
    rewrite Hsplit, (reduce_descend_at _ _ _ _ _ Hpre).
    unfold descend. rewrite Ht, Hthrow. reflexivity.
Qed.

(** The theorem at work on [{a: 5}] and the path [a.b.c]: the number 5 has no
    property [b]. *)
Lemma getNestedValue_resolution_witness :
  getNestedValue (RT := ref_runtime) (VObj [("a", VNum 5)]) "a.b.c" = Some VNull.
Proof.
  apply (proj1 (getNestedValue_resolution (RT := ref_runtime) (VObj [("a", VNum 5)]) "a.b.c")
           ["a"] "b" ["c"] (VNum 5)).
  - reflexivity.
  - reflexivity.
  - right. reflexivity.
Defined.

(** C3 as stated fails: in [{name: "abc"}] the container reached by
    [name.length] is a string, not a mapping, and the resolved value is 3. *)
Lemma getNestedValue_string_container :
  getNestedValue (RT := ref_runtime) (VObj [("name", VStr "abc")]) "name.length"
  = Some (VNum 3).
Proof. reflexivity. Qed.

(** Arrays are read the same way: an index segment selects an element. *)
Lemma getNestedValue_array_index :
  getNestedValue (RT := ref_runtime) (VObj [("tags", VArr [VStr "x"; VStr "y"])]) "tags.1"
  = Some (VStr "y").
Proof. reflexivity. Qed.

(** Inherited members are read too: the constructor of a string is the
    function String, whose name is its own property; reading [caller] on a
    built-in function throws. *)
Lemma getNestedValue_inherited :
  getNestedValue (RT := ref_runtime) (VObj [("a", VStr "x")]) "a.constructor.name"
  = Some (VStr "String")
  /\ getNestedValue (RT := ref_runtime) (VObj []) "constructor.caller" = None.
Proof. split; reflexivity. Qed.

(** ** Conversions *)

(** Induction on values, through the elements of arrays. *)
Lemma Value_elements_ind (P : Value -> Prop) :
  P VUndef -> P VNull -> (forall b, P (VBool b)) -> (forall q, P (VNum q)) ->
  (forall s, P (VStr s)) ->
  (forall elems, Forall P elems -> P (VArr elems)) ->
  (forall props, P (VObj props)) ->
  (forall h, P (VNative h)) ->
  forall v, P v.
Proof.
  intros Hu Hn Hb Hq Hs Ha Ho Hh.
  fix IH 1. intros [| |b|q|s|elems|props|h].
  - exact Hu.
  - exact Hn.
  - apply Hb.
  - apply Hq.
  - apply Hs.
  - apply Ha. induction elems as [|e elems IHe]; constructor; [apply IH | exact IHe].
  - apply Ho.
  - apply Hh.
Qed.

Lemma sequence_Some {A : Type} (l : list (option A)) :
  Forall (fun x => x <> None) l -> exists r, sequence l = Some r.
Proof.
  induction 1 as [|x l Hx _ [r Hr]]; simpl; [now exists []|].
  destruct x as [a|]; [|contradiction]. simpl. rewrite Hr. simpl. now eexists.
Qed.

Lemma sequence_None {A : Type} (l : list (option A)) :
  Exists (fun x => x = None) l -> sequence l = None.
Proof.
  induction 1 as [x l Hx | x l _ IH]; simpl.
  - now rewrite Hx.
  - destruct x; simpl; [now rewrite IH | reflexivity].
Qed.

(** [String] throws exactly on the values that are not [convertible]. *)
Lemma to_string_convertible {RT : JSRuntime} (v : Value) :
  convertible v = true <-> to_string v <> None.
Proof.
  induction v as [| |b|q|s|elems IH|props|h] using Value_elements_ind;
    try (simpl; split; [discriminate | reflexivity]).
  - destruct b; simpl; split; intros; [discriminate | reflexivity | discriminate | reflexivity].
  - simpl. split.
    + intros Hall. rewrite forallb_forall in Hall.
      destruct (sequence_Some
                  (map (fun e => match e with
                                 | VUndef | VNull => Some ""%string
                                 | _ => to_string e
                                 end) elems)) as [r ->]; [|discriminate].
      apply Forall_forall. intros x Hx. apply in_map_iff in Hx.
      destruct Hx as [e [<- He]]. rewrite Forall_forall in IH.
      specialize (IH e He). specialize (Hall e He).
      destruct e; try discriminate; now apply IH.
    + intros Hsome. apply forallb_forall. intros e He.
      rewrite Forall_forall in IH. apply (IH e He).
      intros Hnone. apply Hsome. rewrite sequence_None; [reflexivity|].
      apply Exists_exists.
      exists (match e with VUndef | VNull => Some ""%string | _ => to_string e end).
      split.
      * apply (in_map (fun e => match e with
                                | VUndef | VNull => Some ""%string
                                | _ => to_string e
                                end) _ _ He).
      * destruct e; try discriminate Hnone; exact Hnone.
  - simpl. destruct (has_own "toString" props); simpl; split; intros;
      try discriminate; try reflexivity. now elim H.
Qed.

(** [Number] throws on the same values. *)
Lemma to_number_convertible {RT : JSRuntime} (v : Value) :
  convertible v = true <-> to_number v <> None.
Proof.
  destruct v as [| |[|]|q|s|elems|props|h];
    try (simpl; split; [discriminate | reflexivity]).
  - rewrite to_string_convertible. unfold to_number.
    destruct (to_string (VArr elems)); simpl; split; intros H; try discriminate; auto.
  - rewrite to_string_convertible. unfold to_number.
    destruct (to_string (VObj props)); simpl; split; intros H; try discriminate; auto.
Qed.

(** ** Conditions *)

(** Open the evaluation of one condition whose fields are given. *)
Ltac open_condition :=
  unfold evaluateCondition; cbn [c_field c_operator c_value].

(** A number that is not equal to itself is the NaN of the format. *)
Lemma Prim2SF_nan (x : float) : PrimFloat.is_nan x = true -> Prim2SF x = S754_nan.
Proof.
  unfold PrimFloat.is_nan. intros H. apply negb_true_iff in H.
  rewrite FloatAxioms.eqb_spec in H. unfold SFeqb in H.
  destruct (Prim2SF x) as [s|s| |s m e]; try reflexivity.
  - discriminate H.
  - destruct s; discriminate H.
  - simpl in H. rewrite Z.compare_refl, Pos.compare_cont_refl in H.
    destruct s; discriminate H.
Qed.

Lemma num_lt_nan_l (x y : float) : PrimFloat.is_nan x = true -> num_lt x y = false.
Proof.
  intros H. unfold num_lt. rewrite FloatAxioms.ltb_spec, (Prim2SF_nan x H). reflexivity.
Qed.

Lemma num_lt_nan_r (x y : float) : PrimFloat.is_nan y = true -> num_lt x y = false.
Proof.
  intros H. unfold num_lt. rewrite FloatAxioms.ltb_spec, (Prim2SF_nan y H).
  unfold SFltb. destruct (Prim2SF x); reflexivity.
Qed.

Lemma prefix_refl (s : string) : String.prefix s s = true.
Proof.
  induction s as [|c s IH]; simpl; [reflexivity|].
  destruct (ascii_dec c c) as [_|Hne]; [exact IH | now elim Hne].
Qed.

Lemma includes_refl (s : string) : includes s s = true.
Proof. destruct s; simpl; [reflexivity|]. rewrite prefix_refl.
  destruct (ascii_dec a a) as [_|Hne]; [reflexivity | now elim Hne]. Qed.

(** An object with an own [toString] entry cannot be converted: comparing it
    throws. *)
Lemma greater_than_throws_on_toString_entry {RT : JSRuntime} :
  evaluateCondition (VObj [("rating", VObj [("toString", VNum 1)])])
    {| c_field := "rating"; c_operator := "greater_than"; c_value := VNum 3 |}
  = None.
Proof. reflexivity. Qed.

Lemma primitive_convertible (v : Value) :
  is_primitive v = true -> convertible v = true.
Proof. destruct v; simpl; intros H; try discriminate; reflexivity. Qed.

(** C2, as the code has it.  [greater_than] and [less_than] compare
    [Number(fieldValue)] with [Number(value)].  The result is false whenever
    the field value converts to NaN.  A null field value converts to 0, not
    to NaN: against a missing field [greater_than] holds exactly when
    [Number(value) < 0] and [less_than] exactly when [0 < Number(value)].
    The comparison throws exactly when one of the two values cannot be
    converted (an object with an own [toString] entry); it never throws on
    primitive values. *)
Theorem numeric_comparison_coercion {RT : JSRuntime}
        (data : Value) (field : string) (value fieldValue : Value) :
  getNestedValue data field = Some fieldValue ->
  let gt := evaluateCondition data
              {| c_field := field; c_operator := "greater_than"; c_value := value |} in
  let lt := evaluateCondition data
              {| c_field := field; c_operator := "less_than"; c_value := value |} in
  (forall x y, to_number fieldValue = Some x -> to_number value = Some y ->
     gt = Some (y <? x)%float /\ lt = Some (x <? y)%float)
  /\ (forall x y, to_number fieldValue = Some x -> to_number value = Some y ->
        PrimFloat.is_nan x = true ->
        gt = Some false /\ lt = Some false)
  /\ (forall y, fieldValue = VNull -> to_number value = Some y ->
        gt = Some (y <? 0)%float /\ lt = Some (0 <? y)%float)
  /\ (convertible fieldValue = true /\ convertible value = true
      <-> gt <> None /\ lt <> None)
  /\ (is_primitive fieldValue = true -> is_primitive value = true ->
      gt <> None /\ lt <> None).
Proof.
  intros Hres gt lt.
  assert (Hgen : forall x y, to_number fieldValue = Some x -> to_number value = Some y ->
                   gt = Some (y <? x)%float /\ lt = Some (x <? y)%float).
  { intros x y Hx Hy. subst gt lt. open_condition. rewrite Hres. simpl. rewrite Hx, Hy.
    split; reflexivity. }
  assert (Hthrow : convertible fieldValue = true /\ convertible value = true
                   <-> gt <> None /\ lt <> None).
  { rewrite !to_number_convertible. split.
    - intros [Hx Hy].
      destruct (to_number fieldValue) as [x|] eqn:Ex; [|now elim Hx].
      destruct (to_number value) as [y|] eqn:Ey; [|now elim Hy].
      destruct (Hgen x y eq_refl eq_refl) as [-> ->]. split; discriminate.
    - intros [Hg _]. subst gt. unfold evaluateCondition in Hg.
      cbn [c_field c_operator c_value] in Hg. rewrite Hres in Hg. simpl in Hg.
      destruct (to_number fieldValue); [|now elim Hg].
      destruct (to_number value); [|now elim Hg].
      split; discriminate. }
  split; [exact Hgen|]. split; [|split; [|split]].
  - intros x y Hx Hy Hnan. destruct (Hgen x y Hx Hy) as [-> ->].
    fold (num_lt y x). fold (num_lt x y).
    now rewrite (num_lt_nan_r y x Hnan), (num_lt_nan_l x y Hnan).
  - intros y -> Hy. exact (Hgen 0%float y eq_refl Hy).
  - exact Hthrow.
  - intros Hpf Hpv. apply Hthrow. split; now apply primitive_convertible.
Qed.

(** The theorem on the payload [{rating: "abc"}] and the bound 3: "abc"
    converts to NaN. *)
Lemma numeric_comparison_coercion_witness :
  evaluateCondition (RT := ref_runtime) (VObj [("rating", VStr "abc")])
    {| c_field := "rating"; c_operator := "greater_than"; c_value := VNum 3 |}
  = Some false
  /\ evaluateCondition (RT := ref_runtime) (VObj [("rating", VStr "abc")])
       {| c_field := "rating"; c_operator := "less_than"; c_value := VNum 3 |}
     = Some false.
Proof.
  apply (proj1 (proj2 (numeric_comparison_coercion (RT := ref_runtime)
                         (VObj [("rating", VStr "abc")]) "rating" (VNum 3) (VStr "abc")
                         eq_refl)) nan 3%float); reflexivity.
Defined.

(** C2 as stated fails: the payload [{}] has no [rating], the field resolves
    to null, [Number(null)] is 0, and both [rating < 3] and [rating > -1]
    hold. *)
Lemma comparison_on_missing_field_holds :
  getNestedValue (RT := ref_runtime) (VObj []) "rating" = Some VNull
  /\ evaluateCondition (RT := ref_runtime) (VObj [])
       {| c_field := "rating"; c_operator := "less_than"; c_value := VNum 3 |}
     = Some true
  /\ evaluateCondition (RT := ref_runtime) (VObj [])
       {| c_field := "rating"; c_operator := "greater_than"; c_value := VNum (-1) |}
     = Some true.
Proof. repeat split; reflexivity. Qed.

(** The same under any runtime in which no built-in member is called
    [rating]: no string is converted on the way. *)
Lemma comparison_on_missing_field_any_runtime {RT : JSRuntime} :
  inherited (VObj []) "rating" = Some VUndef ->
  evaluateCondition (VObj [])
    {| c_field := "rating"; c_operator := "less_than"; c_value := VNum 3 |}
  = Some true.
Proof.
  intros Hkey. open_condition. unfold getNestedValue, descend, get_prop. simpl.
  rewrite Hkey. reflexivity.
Qed.

(** C4, as the code has it.  A null field value is turned into text by
    [String], which gives "null" and not the empty string: [contains] holds
    exactly when the lower-cased condition text occurs in (lower-cased)
    "null", and [not_contains] exactly when it does not.  So the condition
    text "null" matches a missing field under [contains] and fails under
    [not_contains]. *)
Theorem contains_null_coercion {RT : JSRuntime}
        (data : Value) (field : string) (value : Value) (t : string) :
  getNestedValue data field = Some VNull ->
  to_string value = Some t ->
  let contains := evaluateCondition data
                    {| c_field := field; c_operator := "contains"; c_value := value |} in
  let not_contains := evaluateCondition data
                        {| c_field := field; c_operator := "not_contains"; c_value := value |} in
  contains = Some (includes (toLowerCase "null") (toLowerCase t))
  /\ not_contains = Some (negb (includes (toLowerCase "null") (toLowerCase t)))
  /\ (t = "null" -> contains = Some true /\ not_contains = Some false).
Proof.
  intros Hres Ht contains not_contains.
  assert (Hc : contains = Some (includes (toLowerCase "null") (toLowerCase t))).
  { subst contains. open_condition. rewrite Hres. simpl. rewrite Ht. reflexivity. }
  assert (Hn : not_contains = Some (negb (includes (toLowerCase "null") (toLowerCase t)))).
  { subst not_contains. open_condition. rewrite Hres. simpl. rewrite Ht. reflexivity. }
  repeat split; try assumption.
  - rewrite Hc. subst t. now rewrite includes_refl.
  - rewrite Hn. subst t. now rewrite includes_refl.
Qed.

(** The theorem on the payload [{}] and the condition text "Nu". *)
Lemma contains_null_coercion_witness :
  evaluateCondition (RT := ref_runtime) (VObj [])
    {| c_field := "comment"; c_operator := "contains"; c_value := VStr "Nu" |}
  = Some true.
Proof.
  exact (proj1 (contains_null_coercion (RT := ref_runtime) (VObj []) "comment" (VStr "Nu") "Nu"
                  eq_refl eq_refl)).
Defined.

(** C4 as stated fails: against the payload [{}], [contains "null"] matches
    and [not_contains "null"] (a non-empty text) does not hold. *)
Lemma contains_null_text_matches_missing_field :
  getNestedValue (RT := ref_runtime) (VObj []) "comment" = Some VNull
  /\ evaluateCondition (RT := ref_runtime) (VObj [])
       {| c_field := "comment"; c_operator := "contains"; c_value := VStr "null" |}
     = Some true
  /\ evaluateCondition (RT := ref_runtime) (VObj [])
       {| c_field := "comment"; c_operator := "not_contains"; c_value := VStr "null" |}
     = Some false.
Proof. repeat split; reflexivity. Qed.

(** The same under any runtime in which no built-in member is called
    [comment], whatever its case mapping. *)
Lemma contains_null_text_any_runtime {RT : JSRuntime} :
  inherited (VObj []) "comment" = Some VUndef ->
  evaluateCondition (VObj [])
    {| c_field := "comment"; c_operator := "contains"; c_value := VStr "null" |}
  = Some true.
Proof.
  intros Hkey. open_condition. unfold getNestedValue, descend, get_prop. simpl.
  rewrite Hkey. simpl. now rewrite includes_refl.
Qed.



(** ** The notification life cycle *)

Lemma forEach_acc (f : RecipientEntry -> RecipientEntry) (l : list RecipientEntry) :
  forall done,
    fold_left (fun done recipient => done ++ [f recipient]) l done = done ++ map f l.
Proof.
  induction l as [|r l IH]; intros done; simpl.
  - now rewrite app_nil_r.
  - rewrite IH, <- app_assoc. reflexivity.
Qed.

(** forEach visits every entry once, in order. *)
Lemma forEach_map (f : RecipientEntry -> RecipientEntry) (l : list RecipientEntry) :
  forEach f l = map f l.
Proof. unfold forEach. now rewrite forEach_acc. Qed.

Lemma nth_error_forEach (f : RecipientEntry -> RecipientEntry)
      (l : list RecipientEntry) (i : nat) (r : RecipientEntry) :
  nth_error l i = Some r -> nth_error (forEach f l) i = Some (f r).
Proof. intros H. rewrite forEach_map. now apply map_nth_error. Qed.

Lemma successful_count (l : list RecipientEntry) :
  List.length (filter (fun r => is_successful (rc_status r)) l)
  = sent_or_delivered (map rc_status l).
Proof.
  induction l as [|r l IH]; simpl; [reflexivity|].
  destruct (rc_status r); simpl; now rewrite ?IH.
Qed.

(** *** Binary64 facts: a count divided by itself is 1 *)

Lemma digits2_pos_shift (p n : positive) :
  digits2_pos (Pos.iter xO p n) = (digits2_pos p + n)%positive.
Proof.
  induction n as [|n IH] using Pos.peano_ind.
  - simpl. lia.
  - rewrite Pos.iter_succ. simpl. rewrite IH. lia.
Qed.

Lemma digits2_pos_bound (p : positive) :
  forall n, 0 <= n -> Zpos p < 2 ^ n -> Zpos (digits2_pos p) <= n.
Proof.
  induction p as [p IH|p IH|]; intros n Hn Hlt; simpl.
  - assert (n <> 0) by (intros ->; simpl in Hlt; lia).
    replace n with (Z.succ (n - 1)) in Hlt by lia.
    rewrite Z.pow_succ_r in Hlt by lia.
    specialize (IH (n - 1)). lia.
  - assert (n <> 0) by (intros ->; simpl in Hlt; lia).
    replace n with (Z.succ (n - 1)) in Hlt by lia.
    rewrite Z.pow_succ_r in Hlt by lia.
    specialize (IH (n - 1)). lia.
  - assert (n <> 0) by (intros ->; simpl in Hlt; lia). lia.
Qed.

(** Rounding leaves a mantissa that is already in canonical position. *)
Lemma binary_round_aux_canonical (s : bool) (m : positive) (e : Z) :
  canonical_mantissa prec emax m e = true ->
  e <= emax - prec ->
  binary_round_aux prec emax s (Zpos m) e loc_Exact = S754_finite s m e.
Proof.
  unfold canonical_mantissa. intros Hc He. apply Z.eqb_eq in Hc.
  unfold binary_round_aux, shr_fexp. cbn [Zdigits2]. rewrite Hc, Z.sub_diag.
  cbn [shr shr_record_of_loc round_nearest_even shr_m loc_of_shr_record Zdigits2].
  rewrite Hc, Z.sub_diag. cbn [shr shr_m shr_record_of_loc].
  apply Z.leb_le in He. now rewrite He.
Qed.

(** A count from 1 to 2^53 - 1 is a finite, non-zero binary64 number. *)
Lemma binary64_of_nat_finite (k : nat) :
  (0 < k)%nat -> Z.of_nat k < 2 ^ 53 ->
  exists m e, Prim2SF (binary64_of_nat k) = S754_finite false m e.
Proof.
  intros Hpos Hlt. unfold binary64_of_nat. rewrite of_uint63_spec.
  rewrite Uint63.of_Z_spec.
  rewrite Z.mod_small by (unfold wB; simpl; lia).
  destruct (Z.of_nat k) as [|p|p] eqn:Hk; try lia.
  unfold binary_normalize, binary_round.
  pose proof (digits2_pos_bound p 53 ltac:(lia) Hlt) as Hd.
  assert (Hfexp : fexp prec emax (Zpos (digits2_pos p) + 0) = Zpos (digits2_pos p) - 53).
  { unfold fexp, emin, prec, emax. lia. }
  rewrite Hfexp. unfold shl_align.
  destruct (Zpos (digits2_pos p) - 53 - 0) as [|d|d] eqn:Hs; try lia.
  - do 2 eexists. apply binary_round_aux_canonical.
    + unfold canonical_mantissa. apply Z.eqb_eq. unfold fexp, emin, prec, emax. lia.
    + unfold prec, emax. lia.
  - do 2 eexists. apply binary_round_aux_canonical.
    + unfold canonical_mantissa. apply Z.eqb_eq. rewrite digits2_pos_shift.
      unfold fexp, emin, prec, emax. lia.
    + unfold prec, emax. lia.
Qed.

(** The quotient of a finite non-zero number by itself is 1: the division
    is exact. *)
Lemma SFdiv_self (s : bool) (m : positive) (e : Z) :
  SFdiv prec emax (S754_finite s m e) (S754_finite s m e) = Prim2SF 1%float.
Proof.
  unfold SFdiv, SFdiv_core_binary.
  replace (Zdigits2 (Zpos m) + e - (Zdigits2 (Zpos m) + e)) with 0 by lia.
  rewrite Z.sub_diag.
  change (Z.min (fexp prec emax 0) 0) with (-53).
  change (0 - -53) with 53.
  cbv iota beta.
  rewrite Z.shiftl_mul_pow2 by lia.
  assert (Hdiv : Z.div_eucl (Zpos m * 2 ^ 53) (Zpos m) = (2 ^ 53, 0)).
  { pose proof (Z.div_mul (2 ^ 53) (Zpos m) ltac:(lia)) as Hq.
    pose proof (Z.mod_mul (2 ^ 53) (Zpos m) ltac:(lia)) as Hr.
    rewrite (Z.mul_comm (2 ^ 53)) in Hq, Hr.
    unfold Z.div in Hq. unfold Z.modulo in Hr.
    destruct (Z.div_eucl (Zpos m * 2 ^ 53) (Zpos m)) as [q r]. now subst. }
  rewrite Hdiv.
  assert (Hloc : new_location (Zpos m) 0 = loc_Exact).
  { unfold new_location. destruct (Z.even (Zpos m)); reflexivity. }
  rewrite Hloc. destruct s; reflexivity.
Qed.

Lemma whole_share_is_100 (k : nat) :
  (0 < k)%nat -> Z.of_nat k < 2 ^ 53 ->
  (binary64_of_nat k / binary64_of_nat k * 100)%float = 100%float.
Proof.
  intros Hpos Hlt.
  assert (Hone : (binary64_of_nat k / binary64_of_nat k)%float = 1%float).
  { apply Prim2SF_inj. rewrite FloatAxioms.div_spec.
    destruct (binary64_of_nat_finite k Hpos Hlt) as [m [e ->]].
    apply SFdiv_self. }
  rewrite Hone. reflexivity.
Qed.

Lemma getSuccessRate_share (n : Notification) :
  recipients n <> [] ->
  getSuccessRate n
  = (binary64_of_nat (sent_or_delivered (map rc_status (recipients n)))
     / binary64_of_nat (List.length (recipients n)) * 100)%float.
Proof.
  intros Hne. unfold getSuccessRate. rewrite successful_count.
  destruct (recipients n) as [|r l]; [contradiction|]. reflexivity.
Qed.

(** C6.  getSuccessRate is the share, in percent, of the recipients whose
    status is sent or delivered: that count divided by the number of
    recipients, times 100, in binary64; it is 0 when there is no recipient.
    For the statuses sent, failed, delivered it is the binary64 number
    0x1.0aaaaaaaaaaaap+6, whose exact value lies between 66.66 and 66.67,
    within 10^-13 of 200/3, and is 66.67 to the nearest hundredth. *)
Theorem getSuccessRate_fraction (n : Notification) :
  (recipients n = [] -> getSuccessRate n = 0%float)
  /\ (recipients n <> [] ->
      getSuccessRate n
      = (binary64_of_nat (sent_or_delivered (map rc_status (recipients n)))
         / binary64_of_nat (List.length (recipients n)) * 100)%float)
  /\ (map rc_status (recipients n) = [rs_sent; rs_failed; rs_delivered] ->
      getSuccessRate n = 0x1.0aaaaaaaaaaaap+6%float
      /\ (6666 # 100 < exact_value (getSuccessRate n))%Q
      /\ (exact_value (getSuccessRate n) < 6667 # 100)%Q
      /\ ((200 # 3) - (1 # 10000000000000) < exact_value (getSuccessRate n))%Q
      /\ (exact_value (getSuccessRate n) <= 200 # 3)%Q
      /\ Qfloor (exact_value (getSuccessRate n) * 100 + (1 # 2))%Q = 6667).
Proof.
  split; [|split].
  - unfold getSuccessRate. intros ->. reflexivity.
  - apply getSuccessRate_share.
  - unfold getSuccessRate. intros H.
    destruct (recipients n) as [|r1 [|r2 [|r3 [|r4 l]]]]; try discriminate.
    simpl in H. injection H as H1 H2 H3.
    cbn [List.length Nat.eqb filter]. rewrite H1, H2, H3.
    cbn [is_successful List.length].
    repeat split; vm_compute; solve [reflexivity | discriminate].
Qed.

(** The theorem on a notification with three recipients, sent, failed and
    delivered. *)
Lemma getSuccessRate_fraction_witness :
  getSuccessRate
    (notification_with [entry "a@x.io" rs_sent 0; entry "b@x.io" rs_failed 1;
                        entry "c@x.io" rs_delivered 0])
  = 0x1.0aaaaaaaaaaaap+6%float.
Proof.
  exact (proj1 (proj2 (proj2 (getSuccessRate_fraction
           (notification_with [entry "a@x.io" rs_sent 0; entry "b@x.io" rs_failed 1;
                               entry "c@x.io" rs_delivered 0]))) eq_refl)).
Defined.

Lemma all_sent_count (now : Z) (l : list RecipientEntry) :
  Forall (fun r => rc_status r = rs_pending) l ->
  sent_or_delivered (map rc_status (map (send_recipient now) l)) = List.length l.
Proof.
  induction 1 as [|r l Hr _ IH]; simpl; [reflexivity|].
  unfold send_recipient at 1. rewrite Hr. simpl. now rewrite IH.
Qed.

(** C7.  markAsSent sets the status to sent and sentAt to the current time;
    a pending recipient becomes sent with its own sentAt, any other recipient
    is left as it is; and when the list is not empty and every recipient was
    pending, getSuccessRate then gives 100.  (The length of the list is that
    of a JavaScript array, here anything below 2^53.) *)
Theorem markAsSent_round_trip (now : Z) (n : Notification) :
  recipients n <> [] ->
  Z.of_nat (List.length (recipients n)) < 2 ^ 53 ->
  Forall (fun r => rc_status r = rs_pending) (recipients n) ->
  status (markAsSent now n) = st_sent
  /\ sentAt (markAsSent now n) = Some now
  /\ List.length (recipients (markAsSent now n)) = List.length (recipients n)
  /\ (forall i r, nth_error (recipients n) i = Some r ->
        exists r', nth_error (recipients (markAsSent now n)) i = Some r'
          /\ rc_status r' = rs_sent /\ rc_sentAt r' = Some now
          /\ rc_type r' = rc_type r /\ rc_value r' = rc_value r
          /\ rc_error r' = rc_error r /\ rc_retryCount r' = rc_retryCount r)
  /\ (forall (m : Notification) i r,
        nth_error (recipients m) i = Some r ->
        rc_status r <> rs_pending ->
        nth_error (recipients (markAsSent now m)) i = Some r)
  /\ getSuccessRate (markAsSent now n) = 100%float.
Proof.
  intros Hne Hlen Hall. repeat split.
  - simpl. rewrite forEach_map. apply length_map.
  - intros i r Hi. exists (send_recipient now r). split.
    + simpl. now apply nth_error_forEach.
    + assert (Hr : rc_status r = rs_pending).
      { rewrite Forall_forall in Hall. apply Hall. eapply nth_error_In; eauto. }
      unfold send_recipient. rewrite Hr. simpl. repeat split; reflexivity.
  - intros m i r Hi Hnp. simpl. rewrite (nth_error_forEach _ _ _ _ Hi).
    unfold send_recipient. destruct (rc_status r); try reflexivity. now elim Hnp.
  - rewrite getSuccessRate_share.
    + simpl. rewrite forEach_map, all_sent_count, length_map by assumption.
      apply whole_share_is_100; [|exact Hlen].
      destruct (recipients n); [contradiction | simpl; lia].
    + simpl. rewrite forEach_map. destruct (recipients n); [contradiction | discriminate].
Qed.

(** The theorem on a notification with two pending recipients. *)
Lemma markAsSent_round_trip_witness :
  getSuccessRate
    (markAsSent 1700000000000
       (notification_with [entry "a@x.io" rs_pending 0; entry "b@x.io" rs_pending 0]))
  = 100%float.
Proof.
  apply (markAsSent_round_trip 1700000000000
           (notification_with [entry "a@x.io" rs_pending 0; entry "b@x.io" rs_pending 0])).
  - discriminate.
  - reflexivity.
  - repeat constructor.
Defined.

(** C9.  incrementRetry adds one to the notification's retryCount and keeps
    its status; a failed recipient gets its retryCount increased by one and
    keeps its other fields, every other recipient is unchanged. *)
Theorem incrementRetry_frame (now : Z) (n : Notification) :
  retryCount (incrementRetry now n) = retryCount n + 1
  /\ status (incrementRetry now n) = status n
  /\ List.length (recipients (incrementRetry now n)) = List.length (recipients n)
  /\ (forall i r, nth_error (recipients n) i = Some r ->
        exists r', nth_error (recipients (incrementRetry now n)) i = Some r'
          /\ (rc_status r = rs_failed ->
              rc_retryCount r' = rc_retryCount r + 1
              /\ rc_status r' = rs_failed
              /\ rc_type r' = rc_type r /\ rc_value r' = rc_value r
              /\ rc_sentAt r' = rc_sentAt r /\ rc_error r' = rc_error r)
          /\ (rc_status r <> rs_failed -> r' = r)).
Proof.
  repeat split.
  - simpl. rewrite forEach_map. apply length_map.
  - intros i r Hi. exists (retry_recipient r). split; [|split].
    + simpl. now apply nth_error_forEach.
    + intros Hf. unfold retry_recipient. rewrite Hf. simpl.
      repeat split; reflexivity.
    + intros Hnf. unfold retry_recipient.
      destruct (rc_status r); try reflexivity. now elim Hnf.
Qed.

(** The theorem on a notification whose first recipient failed and whose
    second was sent: the second comes back as it was. *)
Lemma incrementRetry_frame_witness :
  nth_error
    (recipients
       (incrementRetry 1700000000000
          (notification_with [entry "a@x.io" rs_failed 1; entry "b@x.io" rs_sent 0])))
    1
  = Some (entry "b@x.io" rs_sent 0).
Proof.
  destruct (proj2 (proj2 (proj2 (incrementRetry_frame 1700000000000
             (notification_with [entry "a@x.io" rs_failed 1; entry "b@x.io" rs_sent 0]))))
             1%nat (entry "b@x.io" rs_sent 0) eq_refl)
    as [r' [Hnth [_ Hsame]]].
  rewrite Hnth. f_equal. apply Hsame. discriminate.
Defined.

(** ** The time window *)

(** The order of two numbers read the other way round. *)
Lemma SFcompare_antisym (x y : spec_float) (c : comparison) :
  SFcompare x y = Some c -> SFcompare y x = Some (CompOpp c).
Proof.
  destruct x as [sx|sx| |sx mx ex], y as [sy|sy| |sy my ey]; simpl;
    try discriminate; try (destruct sx); try (destruct sy);
    intros [= <-]; try reflexivity.
  - change PosDef.Pos.compare_cont with Pos.compare_cont.
    rewrite (Z.compare_antisym ex ey). destruct (ex ?= ey); simpl; try reflexivity.
    now rewrite (Pos.compare_cont_antisym mx my Eq).
  - change PosDef.Pos.compare_cont with Pos.compare_cont.
    rewrite (Z.compare_antisym ex ey). destruct (ex ?= ey); simpl; try reflexivity.
    now rewrite (Pos.compare_cont_antisym mx my Eq).
Qed.

(** [b < a] excludes [a <= b]. *)
Lemma num_lt_not_le (a b : float) : num_lt b a = true -> num_le a b = false.
Proof.
  unfold num_lt, num_le. rewrite FloatAxioms.ltb_spec, FloatAxioms.leb_spec.
  unfold SFltb, SFleb. destruct (SFcompare (Prim2SF b) (Prim2SF a)) as [c|] eqn:E;
    [|discriminate].
  rewrite (SFcompare_antisym _ _ _ E). destruct c; try discriminate. reflexivity.
Qed.

(** isInTimeWindow once a window is set and the wall clock is read. *)
Lemma isInTimeWindow_numbers {RT : JSRuntime} (now : Z) (rule : NotificationRule)
      (h m : float) :
  let tw := timeWindow (settings rule) in
  let startTime := parseTime (text (tw_start tw)) in
  let endTime := parseTime (text (tw_end tw)) in
  let currentTime := (h * 60 + m)%float in
  unset (tw_start tw) = false ->
  unset (tw_end tw) = false ->
  localTime (if String.eqb (tw_timezone tw) "" then "UTC" else tw_timezone tw) now
  = Some (h, m) ->
  isInTimeWindow now rule
  = Some (if num_le startTime endTime
          then num_le startTime currentTime && num_le currentTime endTime
          else num_le startTime currentTime || num_le currentTime endTime).
Proof.
  intros tw startTime endTime currentTime Hs He Hclock. unfold isInTimeWindow. fold tw.
  rewrite Hs, He, Hclock. cbn [orb bind fst snd].
  fold startTime endTime currentTime. unfold num_ge.
  destruct (num_le startTime endTime); reflexivity.
Qed.

(** C8.  Without a start or without an end the gate passes.  With both, read
    as minutes since midnight, and the current minute of the day in the rule's
    time zone: if start <= end the gate passes exactly when
    start <= current <= end, and if start > end exactly when current >= start
    or current <= end.  From 22:00 to 06:00, 23:30 and 02:00 pass and 12:00
    does not. *)
Theorem time_window_gate :
  (forall (RT : JSRuntime) (now : Z) (rule : NotificationRule),
      let tw := timeWindow (settings rule) in
      (unset (tw_start tw) = true \/ unset (tw_end tw) = true ->
       isInTimeWindow now rule = Some true)
      /\ (forall (h m : float),
            unset (tw_start tw) = false ->
            unset (tw_end tw) = false ->
            localTime (if String.eqb (tw_timezone tw) "" then "UTC" else tw_timezone tw) now
            = Some (h, m) ->
            let start := parseTime (text (tw_start tw)) in
            let end_ := parseTime (text (tw_end tw)) in
            let current := (h * 60 + m)%float in
            ((start <=? end_)%float = true ->
             (isInTimeWindow now rule = Some true
              <-> (start <=? current)%float = true /\ (current <=? end_)%float = true))
            /\ ((end_ <? start)%float = true ->
                (isInTimeWindow now rule = Some true
                 <-> (start <=? current)%float = true \/ (current <=? end_)%float = true))))
  /\ (parseTime (RT := ref_runtime) "22:00" = 1320%float
      /\ parseTime (RT := ref_runtime) "06:00" = 360%float
      /\ isInTimeWindow (RT := ref_runtime) (at_time 23 30) night_rule = Some true
      /\ isInTimeWindow (RT := ref_runtime) (at_time 2 0) night_rule = Some true
      /\ isInTimeWindow (RT := ref_runtime) (at_time 12 0) night_rule = Some false).
Proof.
  split; [|repeat split; vm_compute; reflexivity].
  intros RT now rule tw. split.
  - intros Hunset. unfold isInTimeWindow. fold tw.
    destruct Hunset as [-> | ->]; [reflexivity | now rewrite orb_true_r].
  - intros h m Hs He Hclock start end_ current.
    rewrite (isInTimeWindow_numbers now rule h m Hs He Hclock).
    fold tw. fold start end_ current.
    split; intros Horder.
    + unfold num_le. rewrite Horder. split.
      * intros [= Hb]. now apply andb_true_iff in Hb.
      * intros Hb. apply andb_true_iff in Hb. now rewrite Hb.
    + rewrite (num_lt_not_le start end_ Horder). unfold num_le. split.
      * intros [= Hb]. now apply orb_true_iff in Hb.
      * intros Hb. apply orb_true_iff in Hb. now rewrite Hb.
Qed.

(** The theorem on the window 22:00 to 06:00 at 23:30 UTC. *)
Lemma time_window_gate_witness :
  isInTimeWindow (RT := ref_runtime) (at_time 23 30) night_rule = Some true.
Proof.
  apply (proj2 (proj1 time_window_gate ref_runtime (at_time 23 30) night_rule)
           23%float 30%float eq_refl eq_refl eq_refl).
  - reflexivity.
  - left. reflexivity.
Defined.

(** ** The trigger handler *)

#[local] Arguments validates : simpl never.

Section Loop.
Context {RT : JSRuntime}.
Variables (now : Z) (data : Value).


(** Every rule document comes out of the loop either as it went in or with
    one statistics update, the latter only if the rule fired; when the loop
    reaches its end, every rule that fired has its update. *)
Lemma run_rules_pointwise (rules : list NotificationRule) :
  forall triggered i rule,
    nth_error rules i = Some rule ->
    exists rule',
      nth_error (lr_rules (run_rules now data rules triggered)) i = Some rule'
      /\ (rule' = rule
          \/ (shouldTrigger now rule data = Some true
              /\ rule' = updateStatistics now true rule))
      /\ (lr_completed (run_rules now data rules triggered) = true ->
          shouldTrigger now rule data = Some true ->
          rule' = updateStatistics now true rule).
Proof.
  induction rules as [|r rest IH]; intros triggered i rule Hi.
  - destruct i; discriminate.
  - simpl. destruct (shouldTrigger now r data) as [[|]|] eqn:Hfire.
    + destruct (valid (newNotification now r data)) eqn:Hvalid; simpl.
      * destruct (validates (updateStatistics now true r)) eqn:Hsave; simpl.
        -- destruct i as [|i]; simpl in *.
           ++ injection Hi as <-. eexists. split; [reflexivity|]. split; auto.
           ++ apply IH; assumption.
        -- exists rule. split; [exact Hi|]. split; [now left | discriminate].
      * exists rule. split; [exact Hi|]. split; [now left | discriminate].
    + simpl. destruct i as [|i]; simpl in *.
      * injection Hi as <-. exists r. split; [reflexivity|]. split; [now left|].
        intros _ Hf. congruence.
      * apply IH; assumption.
    + simpl. exists rule. split; [exact Hi|]. split; [now left | discriminate].
Qed.

(** When the loop reaches its end, the notifications are those of the rules
    that fired, one each, in order. *)
Lemma run_rules_triggered (rules : list NotificationRule) :
  forall triggered,
    lr_completed (run_rules now data rules triggered) = true ->
    lr_triggered (run_rules now data rules triggered)
    = triggered ++ map (fun rule => newNotification now rule data)
                       (filter (fires now data) rules).
Proof.
  induction rules as [|r rest IH]; intros triggered; simpl.
  - intros _. now rewrite app_nil_r.
  - unfold fires at 1. destruct (shouldTrigger now r data) as [[|]|]; simpl.
    + destruct (valid (newNotification now r data)); simpl; [|discriminate].
      destruct (validates (updateStatistics now true r)); simpl; [|discriminate].
      intros Hc. rewrite (IH _ Hc), <- app_assoc. reflexivity.
    + apply IH.
    + discriminate.
Qed.

End Loop.





Lemma new_recipients_pending (rule : NotificationRule) (now : Z) (data : Value) :
  Forall (fun r => rc_status r = rs_pending /\ rc_retryCount r = 0
                   /\ rc_sentAt r = None /\ rc_error r = None)
         (recipients (newNotification now rule data)).
Proof.
  simpl. induction (actions rule) as [|action rest IH]; simpl; [constructor|].
  apply Forall_app. split; [|exact IH].
  induction (a_recipients action) as [|r l IHl]; simpl; constructor; auto.
Qed.

Lemma new_recipients_addresses (rule : NotificationRule) (now : Z) (data : Value) :
  map (fun r => (rc_type r, rc_value r)) (recipients (newNotification now rule data))
  = flat_map (fun action => map (fun r => (r_type r, r_value r)) (a_recipients action))
             (actions rule).
Proof.
  simpl. induction (actions rule) as [|action rest IH]; simpl; [reflexivity|].
  rewrite map_app, IH, map_map. reflexivity.
Qed.

(** C1, as the code has it.  When the request is served, the handler returns
    one notification per rule that fired, in order, whatever the number of
    actions of the rule.  The recipients of that notification are those of
    all the actions of the rule, in order, each pending with retryCount 0;
    its texts, priority and schedule come from the first action (texts fall
    back to fixed ones, priority to normal and the delay to 0 when the rule
    has no action). *)
Theorem one_notification_per_firing_rule {RT : JSRuntime}
        (now : Z) (collection : list NotificationRule) (req : TriggerRequest)
        (sent : list Notification) (count : nat) :
  response (trigger now collection req) = Success sent count ->
  let data := req_triggerData req in
  let fired := filter (fires now data) (find collection req) in
  sent = map (fun rule => newNotification now rule data) fired
  /\ count = List.length fired
  /\ (forall rule,
        let n := newNotification now rule data in
        map (fun r => (rc_type r, rc_value r)) (recipients n)
        = flat_map (fun action => map (fun r => (r_type r, r_value r)) (a_recipients action))
                   (actions rule)
        /\ Forall (fun r => rc_status r = rs_pending /\ rc_retryCount r = 0
                            /\ rc_sentAt r = None /\ rc_error r = None)
                  (recipients n)
        /\ status n = st_pending
        /\ variables (content n) = data
        /\ (forall first rest,
              actions rule = first :: rest ->
              a_template first <> "" ->
              subject (content n) = Some (a_template first)
              /\ body (content n) = Some (a_template first)
              /\ template (content n) = Some (a_template first)
              /\ priority n = as_priority (a_settings first)
              /\ scheduledFor n = now + as_delay (a_settings first) * 60000)
        /\ (actions rule = [] ->
            subject (content n) = Some "Notification"
            /\ body (content n) = Some "You have a new notification"
            /\ template (content n) = Some "default"
            /\ priority n = normal
            /\ scheduledFor n = now)).
Proof.
  intros Hresp data fired.
  unfold trigger in Hresp. simpl in Hresp.
  destruct (lr_completed (run_rules now (req_triggerData req) (find collection req) []))
    eqn:Hdone; [|discriminate].
  injection Hresp as <- <-.
  rewrite (run_rules_triggered now (req_triggerData req) _ [] Hdone). simpl.
  split; [reflexivity|]. split; [now rewrite length_map|].
  intros rule.
  split; [exact (new_recipients_addresses rule now (req_triggerData req))|].
  split; [exact (new_recipients_pending rule now (req_triggerData req))|].
  split; [reflexivity|]. split; [reflexivity|]. split.
  - intros first rest Hactions Htemplate. simpl. rewrite Hactions. simpl.
    destruct (String.eqb (a_template first) "") eqn:He.
    + apply String.eqb_eq in He. contradiction.
    + repeat split; reflexivity.
  - intros Hactions. simpl. rewrite Hactions. simpl.
    repeat split; try reflexivity. lia.
Qed.

(** The theorem on the rule with two actions. *)
Lemma one_notification_per_firing_rule_witness :
  List.length (filter (fires (RT := ref_runtime) 1000 (req_triggerData low_rating_event))
                      (find [two_action_rule] low_rating_event))
  = 1%nat.
Proof.
  symmetry.
  exact (proj1 (proj2 (one_notification_per_firing_rule (RT := ref_runtime) 1000
                         [two_action_rule] low_rating_event _ _ eq_refl))).
Defined.

(** C1 as stated fails: a rule with two actions (an e-mail and a text
    message) fires and the handler returns one notification, not two; it
    carries the recipients of both actions and the text of the first. *)
Lemma two_actions_one_notification :
  List.length (actions two_action_rule) = 2%nat
  /\ response (trigger (RT := ref_runtime) 1000 [two_action_rule] low_rating_event)
     = Success [newNotification 1000 two_action_rule (req_triggerData low_rating_event)] 1
  /\ map rc_value
         (recipients (newNotification 1000 two_action_rule
                        (req_triggerData low_rating_event)))
     = ["ops@x.io"; "+15550100"]
  /\ subject (content (newNotification 1000 two_action_rule
                         (req_triggerData low_rating_event)))
     = Some "Low rating".
Proof. repeat split; reflexivity. Qed.

(** The same under any runtime: the rule has no window and compares two
    numbers. *)
Lemma two_actions_one_notification_any_runtime {RT : JSRuntime} :
  response (trigger 1000 [two_action_rule] low_rating_event)
  = Success [newNotification 1000 two_action_rule (req_triggerData low_rating_event)] 1.
Proof. reflexivity. Qed.

(** The scenarios of the specification.  The event [{rating: 1}] against an
    active rule [rating < 3] with one e-mail action gives one notification
    with one pending recipient and adds one to totalTriggered and totalSent;
    against the same rule made inactive it gives nothing and the rule is not
    touched. *)
Lemma low_rating_scenarios :
  let rule := rule_with "r1" (settings_with true None None) [rating_below_3]
                        [email_action "Low rating" "ops@x.io"] in
  let off := rule_with "r1" (settings_with false None None) [rating_below_3]
                       [email_action "Low rating" "ops@x.io"] in
  let out := trigger (RT := ref_runtime) 1000 [rule] low_rating_event in
  let out_off := trigger (RT := ref_runtime) 1000 [off] low_rating_event in
  response out = Success [newNotification 1000 rule (req_triggerData low_rating_event)] 1
  /\ map rc_status (recipients (newNotification 1000 rule (req_triggerData low_rating_event)))
     = [rs_pending]
  /\ map (fun r => totalTriggered (statistics r)) (rules_after out) = [1]
  /\ map (fun r => totalSent (statistics r)) (rules_after out) = [1]
  /\ response out_off = Success [] 0
  /\ rules_after out_off = [].
Proof. repeat split; reflexivity. Qed.

(** ** Further checks of the gate against the specification's examples *)

(** A rule without conditions matches every payload. *)
Lemma evaluateConditions_empty {RT : JSRuntime} (rule : NotificationRule) (data : Value) :
  conditions rule = [] -> evaluateConditions rule data = Some true.
Proof. unfold evaluateConditions. now intros ->. Qed.

(** With a cooldown of 10 minutes an active rule without window or conditions
    does not fire 5 minutes after its last trigger and fires 11 minutes
    after it. *)
Lemma cooldown_ten_minutes {RT : JSRuntime} (now : Z) :
  let settings10 :=
    {| isActive := true; s_priority := 0; cooldown := 10;
       timeWindow := {| tw_start := None; tw_end := None; tw_timezone := "UTC" |};
       frequency := immediate |} in
  let fired_at last :=
    set_statistics (rule_with "r1" settings10 [] [])
      {| totalTriggered := 1; totalSent := 1; totalFailed := 0;
         lastTriggered := Some last |} last in
  shouldTrigger now (fired_at (now - 5 * 60000)) VNull = Some false
  /\ shouldTrigger now (fired_at (now - 11 * 60000)) VNull = Some true.
Proof.
  intros settings10 fired_at. unfold shouldTrigger. simpl.
  replace (now - (now - 300000)) with 300000 by lia.
  replace (now - (now - 660000)) with 660000 by lia.
  split; reflexivity.
Qed.

(** * Further properties of the models and of the handler *)

(** ** Paths *)

Lemma split_nonempty (sep : ascii) (s : string) : split sep s <> [].
Proof.
  destruct s as [|c rest]; simpl; [discriminate|].
  destruct (Ascii.eqb c sep); [discriminate|].
  destruct (split sep rest); discriminate.
Qed.

(** Splitting distributes over a separator. *)
Lemma split_app_sep (sep : ascii) (p q : string) :
  split sep (p ++ String sep q) = split sep p ++ split sep q.
Proof.
  induction p as [|c p IH]; simpl.
  - now rewrite Ascii.eqb_refl.
  - rewrite IH. destruct (Ascii.eqb c sep); [reflexivity|].
    pose proof (split_nonempty sep p) as Hne.
    destruct (split sep p) as [|w ws]; [contradiction | reflexivity].
Qed.

(** A string without the separator is one segment. *)
Lemma split_no_sep (sep : ascii) (s : string) :
  mentions sep s = false -> split sep s = [s].
Proof.
  induction s as [|c s IH]; simpl; [reflexivity|].
  intros H. apply Bool.orb_false_iff in H as [Hc Hs].
  rewrite Hc, (IH Hs). reflexivity.
Qed.

(** X1.  Paths compose: resolving [p.q] is resolving [p] and then resolving
    [q] in what was found, so a rule field [a.b.c] reads the same as the field
    [b.c] of the payload's [a]. *)
Theorem getNestedValue_compose {RT : JSRuntime} (obj v : Value) (p q : string) :
  getNestedValue obj p = Some v ->
  getNestedValue obj (p ++ "." ++ q) = getNestedValue v q.
Proof.
  unfold getNestedValue. intros Hp.
  change (p ++ "." ++ q)%string with (p ++ String "."%char q)%string.
  rewrite split_app_sep, reduce_app, Hp. reflexivity.
Qed.

Lemma getNestedValue_compose_witness :
  getNestedValue (RT := ref_runtime)
                 (VObj [("order", VObj [("customer", VObj [("tier", VStr "gold")])])])
                 ("order.customer" ++ "." ++ "tier")
  = getNestedValue (RT := ref_runtime) (VObj [("tier", VStr "gold")]) "tier".
Proof.
  apply (getNestedValue_compose (RT := ref_runtime)
           (VObj [("order", VObj [("customer", VObj [("tier", VStr "gold")])])])
           (VObj [("tier", VStr "gold")]) "order.customer" "tier").
  reflexivity.
Defined.

Lemma descend_defined {RT : JSRuntime} (current v : Value) (key : string) :
  descend current key = Some v -> v <> VUndef.
Proof.
  unfold descend. destruct (truthy current); [|intros [= <-]; discriminate].
  destruct (get_prop current key) as [r|]; simpl; [|discriminate].
  destruct r; simpl; intros [= <-]; discriminate.
Qed.

Lemma reduce_descend_defined {RT : JSRuntime} (keys : list string) :
  keys <> [] ->
  forall current v, reduce descend keys current = Some v -> v <> VUndef.
Proof.
  induction keys as [|key keys IH]; [contradiction|].
  intros _ current v. simpl.
  destruct (descend current key) as [b|] eqn:Hb; simpl; [|discriminate].
  destruct keys as [|key' keys].
  - simpl. intros [= <-]. exact (descend_defined _ _ _ Hb).
  - apply IH. discriminate.
Qed.

Lemma getNestedValue_defined {RT : JSRuntime} (obj : Value) (path : string) :
  getNestedValue obj path <> Some VUndef.
Proof.
  intros H. exact (reduce_descend_defined _ (split_nonempty _ _) _ _ H eq_refl).
Qed.

(** X2.  A resolved field is never [undefined], whatever the payload and the
    path (also the empty path, also a payload that is itself undefined): what
    is missing reads as null.  A falsy payload (null, undefined, false, 0, the
    empty string) resolves every path to null. *)
Theorem getNestedValue_never_undefined {RT : JSRuntime} (obj : Value) (path : string) :
  getNestedValue obj path <> Some VUndef
  /\ (truthy obj = false -> getNestedValue obj path = Some VNull).
Proof.
  split; [apply getNestedValue_defined|].
  unfold getNestedValue.
  - intros Hf. pose proof (split_nonempty "."%char path) as Hne.
    destruct (split "."%char path) as [|key keys]; [contradiction|].
    simpl. unfold descend. rewrite Hf. simpl. apply reduce_descend_null.
Qed.

(** ** Conditions *)

Lemma every_true {A : Type} (f : A -> option bool) (l : list A) :
  every f l = Some true <-> Forall (fun x => f x = Some true) l.
Proof.
  induction l as [|x l IH]; simpl.
  - split; [constructor | reflexivity].
  - destruct (f x) as [[|]|] eqn:Hx; simpl.
    + rewrite IH. split; [now constructor | now inversion 1].
    + split; [discriminate | inversion 1; congruence].
    + split; [discriminate | inversion 1; congruence].
Qed.

(** [every] stops at the first element whose answer is not true, and its
    result is that answer. *)
Lemma every_stops {A : Type} (f : A -> option bool) (l : list A) (r : option bool) :
  r <> Some true ->
  (every f l = r
   <-> exists pre x post,
         l = pre ++ x :: post
         /\ Forall (fun y => f y = Some true) pre
         /\ f x = r).
Proof.
  intros Hr. induction l as [|x l IH]; simpl.
  - split.
    + intros H. now symmetry in H.
    + intros (pre & y & post & Hl & _). now destruct pre.
  - destruct (f x) as [[|]|] eqn:Hx; simpl.
    + rewrite IH. split.
      * intros (pre & y & post & -> & Hpre & Hy).
        exists (x :: pre), y, post. repeat split; [now constructor | exact Hy].
      * intros (pre & y & post & Hl & Hpre & Hy).
        destruct pre as [|x' pre]; simpl in Hl; injection Hl as <- ->.
        -- congruence.
        -- exists pre, y, post. inversion Hpre; subst. now repeat split.
    + split.
      * intros <-. exists [], x, l. repeat split; [constructor | exact Hx].
      * intros (pre & y & post & Hl & Hpre & Hy).
        destruct pre as [|x' pre]; simpl in Hl; injection Hl as <- ->.
        -- congruence.
        -- inversion Hpre; subst. congruence.
    + split.
      * intros <-. exists [], x, l. repeat split; [constructor | exact Hx].
      * intros (pre & y & post & Hl & Hpre & Hy).
        destruct pre as [|x' pre]; simpl in Hl; injection Hl as <- ->.
        -- congruence.
        -- inversion Hpre; subst. congruence.
Qed.

(** X3.  The conditions of a rule are a conjunction read from left to right:
    the rule matches exactly when every condition holds, and otherwise the
    outcome (no match, or the exception of a conversion) is that of the first
    condition that does not hold; the conditions after it are not evaluated,
    so one that would throw there is harmless. *)
Theorem evaluateConditions_first_failure {RT : JSRuntime}
        (rule : NotificationRule) (data : Value) :
  (evaluateConditions rule data = Some true
   <-> Forall (fun c => evaluateCondition data c = Some true) (conditions rule))
  /\ (evaluateConditions rule data = Some false
      <-> exists pre c post,
            conditions rule = pre ++ c :: post
            /\ Forall (fun d => evaluateCondition data d = Some true) pre
            /\ evaluateCondition data c = Some false)
  /\ (evaluateConditions rule data = None
      <-> exists pre c post,
            conditions rule = pre ++ c :: post
            /\ Forall (fun d => evaluateCondition data d = Some true) pre
            /\ evaluateCondition data c = None).
Proof.
  unfold evaluateConditions. split; [apply every_true|].
  split; apply every_stops; discriminate.
Qed.

(** A condition whose operator the switch does not list is false, once its
    field is resolved. *)
Lemma evaluateCondition_default {RT : JSRuntime} (data : Value) (c : Condition)
      (fieldValue : Value) :
  ~ In (c_operator c) operators ->
  getNestedValue data (c_field c) = Some fieldValue ->
  evaluateCondition data c = Some false.
Proof.
  intros Hop Hres. unfold evaluateCondition. rewrite Hres. simpl.
  repeat match goal with
         | |- context [String.eqb (c_operator c) ?s] =>
             destruct (String.eqb_spec (c_operator c) s) as [He|_];
             [exfalso; apply Hop; rewrite He; simpl; tauto|]
         end.
  reflexivity.
Qed.

(** X4.  An operator the switch does not list (a misspelt or differently
    cased name, the empty string) makes the condition false whenever its
    field resolves, whatever the payload and the value, and in no case true:
    a rule holding such a condition never matches.  (The field is resolved
    before the switch; where the resolution throws, so does the
    evaluation.) *)
Theorem unknown_operator_never_matches {RT : JSRuntime}
        (rule : NotificationRule) (data : Value) (c : Condition) :
  ~ In (c_operator c) operators ->
  (forall fieldValue,
     getNestedValue data (c_field c) = Some fieldValue ->
     evaluateCondition data c = Some false)
  /\ evaluateCondition data c <> Some true
  /\ (In c (conditions rule) -> evaluateConditions rule data <> Some true).
Proof.
  intros Hop.
  assert (Hnot : evaluateCondition data c <> Some true).
  { destruct (getNestedValue data (c_field c)) as [fv|] eqn:Hres.
    - rewrite (evaluateCondition_default data c fv Hop Hres). discriminate.
    - unfold evaluateCondition. rewrite Hres. discriminate. }
  split; [|split].
  - intros fv Hres. exact (evaluateCondition_default data c fv Hop Hres).
  - exact Hnot.
  - intros Hin Htrue. apply every_true in Htrue.
    rewrite Forall_forall in Htrue. exact (Hnot (Htrue c Hin)).
Qed.

Lemma unknown_operator_never_matches_witness :
  evaluateConditions (RT := ref_runtime)
    (rule_with "r1" (settings_with true None None)
       [{| c_field := "rating"; c_operator := "Equals"; c_value := VNum 1 |}] [])
    (VObj [("rating", VNum 1)])
  <> Some true.
Proof.
  apply (proj2 (proj2 (unknown_operator_never_matches (RT := ref_runtime)
                         (rule_with "r1" (settings_with true None None)
                            [{| c_field := "rating"; c_operator := "Equals";
                                c_value := VNum 1 |}] [])
                         (VObj [("rating", VNum 1)])
                         {| c_field := "rating"; c_operator := "Equals";
                            c_value := VNum 1 |}
                         ltac:(simpl; intros H;
                               repeat (destruct H as [H|H]; [discriminate H|]);
                               exact H)))).
  left. reflexivity.
Defined.

(** *** Conditions that cannot throw *)

Lemma deep_plain_convertible (v : Value) :
  deep_plain v = true -> convertible v = true.
Proof.
  induction v as [| |b|q|s|elems IH|props|h] using Value_elements_ind;
    simpl; try reflexivity.
  - rewrite !forallb_forall. rewrite Forall_forall in IH. auto.
  - intros H. apply andb_true_iff in H. tauto.
Qed.

Lemma lookup_deep_plain (key : string) (props : list (string * Value)) (v : Value) :
  forallb (fun kv => deep_plain (snd kv)) props = true ->
  lookup key props = Some v -> deep_plain v = true.
Proof.
  induction props as [|[k w] props IH]; simpl; [discriminate|].
  intros H. apply andb_true_iff in H as [Hw Hrest].
  destruct (String.eqb k key); [now intros [= <-] | now apply IH].
Qed.

Lemma nth_error_deep_plain (elems : list Value) (i : nat) (v : Value) :
  forallb deep_plain elems = true -> nth_error elems i = Some v ->
  deep_plain v = true.
Proof.
  intros Hall Hi. rewrite forallb_forall in Hall. apply Hall.
  eapply nth_error_In. exact Hi.
Qed.

(** The own properties of a value without [toString] entries have none. *)
Lemma own_prop_deep_plain (container v : Value) (key : string) :
  deep_plain container = true -> own_prop container key = Some v ->
  deep_plain v = true.
Proof.
  destruct container as [| |b|q|s|elems|props|h]; simpl; try discriminate.
  - intros _. destruct (String.eqb key "length"); [now intros [= <-]|].
    destruct (array_index key) as [i|]; [|discriminate].
    destruct (char_at s i); [now intros [= <-] | discriminate].
  - intros H. destruct (String.eqb key "length"); [now intros [= <-]|].
    destruct (array_index key) as [i|]; [|discriminate].
    now apply nth_error_deep_plain.
  - intros H. apply andb_true_iff in H as [_ H]. now apply lookup_deep_plain.
Qed.

Lemma reduce_descend_deep_plain {RT : JSRuntime} (keys : list string) :
  Forall unclaimed keys ->
  forall current v,
    json current = true ->
    deep_plain current = true -> reduce descend keys current = Some v ->
    deep_plain v = true.
Proof.
  induction 1 as [|key keys Hkey _ IH]; intros current v Hj Hc; simpl.
  - now intros [= <-].
  - unfold descend at 1. destruct (truthy current) eqn:Ht.
    + rewrite (get_prop_unclaimed current key Hkey Hj Ht). simpl.
      destruct (own_prop current key) as [r|] eqn:Hr.
      * destruct (is_undefined r); simpl; apply IH;
          [reflexivity | reflexivity
           | exact (own_prop_json _ _ _ Hj Hr)
           | exact (own_prop_deep_plain _ _ _ Hc Hr)].
      * simpl. now apply IH.
    + simpl. now apply IH.
Qed.

(** A condition that is safe to evaluate on a JSON payload: no segment of
    its field is the name of an inherited member, and if its operator
    converts its operands, the payload holds no [toString] entry and the
    value is convertible. *)
Lemma evaluateCondition_returns {RT : JSRuntime} (data : Value) (c : Condition) :
  json data = true ->
  Forall unclaimed (split "."%char (c_field c)) ->
  (In (c_operator c) coercing ->
   deep_plain data = true /\ convertible (c_value c) = true) ->
  exists b, evaluateCondition data c = Some b.
Proof.
  intros Hjson Hpath Hsafe. unfold evaluateCondition.
  destruct (reduce_descend_unclaimed _ Hpath data Hjson) as [fieldValue [Hfv _]].
  unfold getNestedValue. rewrite Hfv. simpl.
  assert (Hops : In (c_operator c) coercing ->
                 (exists x, to_number fieldValue = Some x)
                 /\ (exists y, to_number (c_value c) = Some y)
                 /\ (exists s, to_string fieldValue = Some s)
                 /\ (exists t, to_string (c_value c) = Some t)).
  { intros Hin. destruct (Hsafe Hin) as [Hd Hv].
    assert (Hf : convertible fieldValue = true)
      by exact (deep_plain_convertible _
                  (reduce_descend_deep_plain _ Hpath _ _ Hjson Hd Hfv)).
    pose proof (proj1 (to_number_convertible fieldValue) Hf).
    pose proof (proj1 (to_number_convertible (c_value c)) Hv).
    pose proof (proj1 (to_string_convertible fieldValue) Hf).
    pose proof (proj1 (to_string_convertible (c_value c)) Hv).
    destruct (to_number fieldValue), (to_number (c_value c)),
             (to_string fieldValue), (to_string (c_value c));
      try contradiction; repeat split; eexists; reflexivity. }
  unfold coercing in Hops.
  repeat match goal with
         | |- context [String.eqb (c_operator c) ?s] =>
             destruct (String.eqb_spec (c_operator c) s) as [He|_]
         end;
    try (eexists; reflexivity);
    specialize (Hops ltac:(rewrite He; simpl; tauto));
    destruct Hops as ([x Hx] & [y Hy] & [s Hs] & [t Ht]);
    rewrite ?Hx, ?Hy, ?Hs, ?Ht; eexists; reflexivity.
Qed.

(** X5.  Evaluating the conditions of a rule on a JSON payload ends without
    an exception when no segment of a condition's field is the name of a
    member that JSON values inherit (so that every read is of an own property
    or undefined) and every condition that converts its operands
    (greater_than, less_than, contains, not_contains) has a convertible
    value, the payload then holding no object with an own [toString] entry
    at any depth. *)
Theorem evaluateConditions_returns {RT : JSRuntime}
        (rule : NotificationRule) (data : Value) :
  json data = true ->
  Forall (fun c => Forall unclaimed (split "."%char (c_field c))
                   /\ (In (c_operator c) coercing ->
                       deep_plain data = true /\ convertible (c_value c) = true))
         (conditions rule) ->
  exists b, evaluateConditions rule data = Some b.
Proof.
  unfold evaluateConditions. intros Hjson.
  induction 1 as [|c l [Hpath Hc] _ [b IH]]; simpl; [now exists true|].
  destruct (evaluateCondition_returns data c Hjson Hpath Hc) as [[|] ->]; simpl.
  - now exists b.
  - now exists false.
Qed.

Lemma evaluateConditions_returns_witness :
  exists b,
    evaluateConditions (RT := ref_runtime)
      (rule_with "r1" (settings_with true None None)
         [rating_below_3;
          {| c_field := "customer.name"; c_operator := "not_equals";
             c_value := VObj [("toString", VNull)] |}] [])
      (VObj [("rating", VStr "2"); ("customer", VObj [("name", VStr "Ann")])])
    = Some b.
Proof.
  apply evaluateConditions_returns; [reflexivity|].
  apply Forall_cons; [|apply Forall_cons; [|apply Forall_nil]]; simpl; split.
  - apply Forall_cons; [|apply Forall_nil].
    intros [| |b|q|s|elems|props|h] Hj; try reflexivity; discriminate Hj.
  - intros _. split; reflexivity.
  - apply Forall_cons; [|apply Forall_cons; [|apply Forall_nil]];
      intros [| |b|q|s|elems|props|h] Hj; try reflexivity; discriminate Hj.
  - intros H. repeat (destruct H as [H|H]; [discriminate H|]). destruct H.
Defined.

(** X6.  Once the field is resolved, [equals] and [not_equals] do not throw
    and are each other's negation.  The comparison is strict: an array or an
    object, as the condition's value or as the value of the field, equals
    nothing, so [not_equals] then holds; the value null is equalled exactly
    by the fields that resolve to null (missing ones included); the value
    undefined is equalled by none. *)
Theorem equality_operators {RT : JSRuntime} (data : Value) (field : string)
        (value fieldValue : Value) :
  getNestedValue data field = Some fieldValue ->
  exists b,
    evaluateCondition data {| c_field := field; c_operator := "equals"; c_value := value |}
    = Some b
    /\ evaluateCondition data
         {| c_field := field; c_operator := "not_equals"; c_value := value |}
       = Some (negb b)
    /\ (is_primitive value = false \/ is_primitive fieldValue = false -> b = false)
    /\ (value = VNull -> (b = true <-> fieldValue = VNull))
    /\ (value = VUndef -> b = false).
Proof.
  intros Hfv. open_condition.
  pose proof (getNestedValue_defined data field) as Hdef.
  rewrite Hfv in *. simpl.
  exists (strict_equals fieldValue value).
  split; [reflexivity|]. split; [reflexivity|]. split; [|split].
  - intros [Hp|Hp]; destruct fieldValue, value; simpl in *; congruence.
  - intros ->. split.
    + destruct fieldValue; simpl; congruence.
    + now intros ->.
  - intros ->. destruct fieldValue; simpl; congruence.
Qed.

Lemma equality_operators_witness :
  exists b,
    evaluateCondition (RT := ref_runtime) (VObj [("tags", VArr [VStr "vip"])])
      {| c_field := "tags"; c_operator := "equals"; c_value := VArr [VStr "vip"] |}
    = Some b
    /\ evaluateCondition (RT := ref_runtime) (VObj [("tags", VArr [VStr "vip"])])
         {| c_field := "tags"; c_operator := "not_equals"; c_value := VArr [VStr "vip"] |}
       = Some (negb b)
    /\ b = false.
Proof.
  destruct (equality_operators (RT := ref_runtime) (VObj [("tags", VArr [VStr "vip"])])
              "tags" (VArr [VStr "vip"]) (VArr [VStr "vip"]) eq_refl)
    as (b & Heq & Hne & Hobj & _).
  exists b. split; [exact Heq|]. split; [exact Hne|]. apply Hobj. now left.
Defined.

(** ** The time window *)

Lemma add_nan (x : float) : (x + nan)%float = nan.
Proof.
  apply Prim2SF_inj. rewrite FloatAxioms.add_spec.
  change (Prim2SF nan) with S754_nan.
  destruct (Prim2SF x) as [s|s| |s m e]; try destruct s; reflexivity.
Qed.

Lemma num_le_nan_l (x : float) : num_le nan x = false.
Proof. unfold num_le. rewrite FloatAxioms.leb_spec. reflexivity. Qed.

Lemma num_le_nan_r (x : float) : num_le x nan = false.
Proof.
  unfold num_le. rewrite FloatAxioms.leb_spec.
  change (Prim2SF nan) with S754_nan. unfold SFleb.
  destruct (Prim2SF x); reflexivity.
Qed.

Lemma parseTime_no_colon {RT : JSRuntime} (s : string) :
  mentions ":"%char s = false -> parseTime s = nan.
Proof.
  intros H. unfold parseTime. rewrite (split_no_sep _ _ H). simpl. apply add_nan.
Qed.

(** X7.  What parseTime reads: of [HH:MM] the hours times 60 plus the
    minutes, each converted by Number; a third part ([HH:MM:SS]) and whatever
    follows it is ignored; a text without a colon gives NaN, whatever it
    holds. *)
Theorem parseTime_parts {RT : JSRuntime} (hours minutes : string) :
  mentions ":"%char hours = false ->
  mentions ":"%char minutes = false ->
  parseTime (hours ++ ":" ++ minutes)
  = (StringToNumber hours * 60 + StringToNumber minutes)%float
  /\ (forall rest,
        parseTime (hours ++ ":" ++ minutes ++ ":" ++ rest)
        = parseTime (hours ++ ":" ++ minutes))
  /\ parseTime hours = nan.
Proof.
  intros Hh Hm. unfold parseTime.
  change (hours ++ ":" ++ minutes)%string
    with (hours ++ String ":"%char minutes)%string.
  rewrite split_app_sep, (split_no_sep _ _ Hh), (split_no_sep _ _ Hm).
  split; [reflexivity|]. split.
  - intros rest.
    change (hours ++ ":" ++ minutes ++ ":" ++ rest)%string
      with (hours ++ String ":"%char (minutes ++ String ":"%char rest))%string.
    rewrite !split_app_sep, (split_no_sep _ _ Hh), (split_no_sep _ _ Hm).
    reflexivity.
  - simpl. apply add_nan.
Qed.

Lemma parseTime_parts_witness :
  parseTime (RT := ref_runtime) ("22" ++ ":" ++ "30") = 1350%float
  /\ parseTime (RT := ref_runtime) "22:30:59" = 1350%float.
Proof.
  destruct (parseTime_parts (RT := ref_runtime) "22" "30" eq_refl eq_refl)
    as (Hvalue & Hrest & _).
  split.
  - rewrite Hvalue. reflexivity.
  - change "22:30:59"%string with ("22" ++ ":" ++ "30" ++ ":" ++ "59")%string.
    rewrite (Hrest "59"%string), Hvalue. reflexivity.
Defined.

(** X8.  A window bound without a colon is not refused; it turns into NaN
    and silently drops its side of the window.  With such a start the rule is
    open up to the end time; with such an end it is open from the start time
    on; with both, the rule is never inside its window. *)
Theorem window_bound_without_colon {RT : JSRuntime} (now : Z)
        (rule : NotificationRule) (h m : float) (start end_ : string) :
  let tw := timeWindow (settings rule) in
  let currentTime := (h * 60 + m)%float in
  tw_start tw = Some start -> start <> ""%string ->
  tw_end tw = Some end_ -> end_ <> ""%string ->
  localTime (if String.eqb (tw_timezone tw) "" then "UTC" else tw_timezone tw) now
  = Some (h, m) ->
  (mentions ":"%char start = false ->
   isInTimeWindow now rule = Some (num_le currentTime (parseTime end_)))
  /\ (mentions ":"%char end_ = false ->
      isInTimeWindow now rule = Some (num_le (parseTime start) currentTime))
  /\ (mentions ":"%char start = false -> mentions ":"%char end_ = false ->
      isInTimeWindow now rule = Some false).
Proof.
  intros tw currentTime Hs Hsne He Hene Hclock.
  assert (Hus : unset (tw_start tw) = false).
  { rewrite Hs. simpl. now apply String.eqb_neq. }
  assert (Hue : unset (tw_end tw) = false).
  { rewrite He. simpl. now apply String.eqb_neq. }
  pose proof (isInTimeWindow_numbers now rule h m Hus Hue Hclock) as Hw.
  cbv zeta in Hw. fold tw in Hw. rewrite Hs, He in Hw. simpl text in Hw.
  fold currentTime in Hw. rewrite Hw.
  split; [|split].
  - intros Hc. rewrite (parseTime_no_colon _ Hc), !num_le_nan_l. reflexivity.
  - intros Hc. rewrite (parseTime_no_colon _ Hc), !num_le_nan_r.
    now rewrite orb_false_r.
  - intros Hc Hc'. rewrite (parseTime_no_colon _ Hc), (parseTime_no_colon _ Hc').
    rewrite !num_le_nan_l, num_le_nan_r. reflexivity.
Qed.

Lemma window_bound_without_colon_witness :
  isInTimeWindow (RT := ref_runtime) (at_time 12 0)
    (rule_with "r1" (settings_with true (Some "2200") (Some "0600")) [] [])
  = Some false.
Proof.
  apply (proj2 (proj2 (window_bound_without_colon (RT := ref_runtime) (at_time 12 0)
                         (rule_with "r1" (settings_with true (Some "2200") (Some "0600"))
                                    [] [])
                         12%float 0%float "2200" "0600"
                         eq_refl ltac:(discriminate) eq_refl ltac:(discriminate)
                         eq_refl)));
    reflexivity.
Defined.

(** ** The cooldown *)

Lemma shouldTrigger_cooling {RT : JSRuntime} (now last : Z) (rule : NotificationRule)
      (data : Value) :
  lastTriggered (statistics rule) = Some last ->
  0 < cooldown (settings rule) ->
  now - last < cooldown (settings rule) * 60000 ->
  shouldTrigger now rule data <> Some true.
Proof.
  intros Hlast Hpos Hnear. unfold shouldTrigger.
  destruct (isActive (settings rule)); simpl; [|discriminate].
  destruct (isInTimeWindow now rule) as [[|]|]; simpl; try discriminate.
  rewrite Hlast.
  replace (0 <? cooldown (settings rule)) with true by (symmetry; apply Z.ltb_lt; lia).
  replace (now - last <? cooldown (settings rule) * 60 * 1000) with true
    by (symmetry; apply Z.ltb_lt; lia).
  discriminate.
Qed.

(** X9.  updateStatistics starts the cooldown: for [cooldown] minutes after
    it the rule does not trigger, whatever the payload (a clock that runs
    backwards keeps it closed).  Once the cooldown has elapsed, and always
    when the cooldown is 0 or negative, the earlier trigger is forgotten: the
    decision is that of the active flag, the time window and the conditions
    alone. *)
Theorem cooldown_after_update {RT : JSRuntime} (t t' : Z) (success : bool)
        (rule : NotificationRule) (data : Value) :
  (0 < cooldown (settings rule) ->
   t' - t < cooldown (settings rule) * 60000 ->
   shouldTrigger t' (updateStatistics t success rule) data <> Some true)
  /\ (cooldown (settings rule) <= 0 \/ cooldown (settings rule) * 60000 <= t' - t ->
      shouldTrigger t' (updateStatistics t success rule) data
      = if negb (isActive (settings rule)) then Some false
        else inWindow <- isInTimeWindow t' rule ;;
             if negb inWindow then Some false else evaluateConditions rule data).
Proof.
  split.
  - intros Hpos Hnear. now apply (shouldTrigger_cooling t' t).
  - intros Hfree. unfold shouldTrigger. cbn [updateStatistics set_statistics settings
                                              statistics lastTriggered].
    change (isInTimeWindow t' (updateStatistics t success rule))
      with (isInTimeWindow t' rule).
    destruct (isActive (settings rule)); simpl; [|reflexivity].
    destruct (isInTimeWindow t' rule) as [[|]|]; simpl; try reflexivity.
    replace ((0 <? cooldown (settings rule))
             && (t' - t <? cooldown (settings rule) * 60 * 1000)) with false.
    + reflexivity.
    + symmetry. apply andb_false_iff. destruct Hfree as [H|H].
      * left. apply Z.ltb_ge. lia.
      * right. apply Z.ltb_ge. lia.
Qed.

Lemma cooldown_after_update_witness :
  shouldTrigger (RT := ref_runtime) (at_time 9 29)
    (updateStatistics (at_time 9 0) true
       (rule_with "r1"
          {| isActive := true; s_priority := 0; cooldown := 30;
             timeWindow := {| tw_start := None; tw_end := None; tw_timezone := "UTC" |};
             frequency := immediate |} [] []))
    VNull
  <> Some true.
Proof.
  apply (proj1 (cooldown_after_update (RT := ref_runtime) (at_time 9 0) (at_time 9 29) true
                  (rule_with "r1"
                     {| isActive := true; s_priority := 0; cooldown := 30;
                        timeWindow := {| tw_start := None; tw_end := None;
                                         tw_timezone := "UTC" |};
                        frequency := immediate |} [] [])
                  VNull));
    reflexivity.
Defined.

(** ** The handler: what it leaves behind *)

(** The statistics are not validated: a document validates after the update
    exactly when it did before. *)
Lemma validates_updateStatistics (now : Z) (success : bool) (rule : NotificationRule) :
  validates (updateStatistics now success rule) = validates rule.
Proof. reflexivity. Qed.

Section Effects.
Context {RT : JSRuntime}.
Variables (now : Z) (data : Value).

(** A property of rule documents that a statistics update keeps holds after
    the loop. *)
Lemma run_rules_rules_Forall (P : NotificationRule -> Prop) :
  (forall rule, P rule -> P (updateStatistics now true rule)) ->
  forall rules triggered,
    Forall P rules -> Forall P (lr_rules (run_rules now data rules triggered)).
Proof.
  intros Hkeep. induction rules as [|rule rest IH]; intros triggered Hall; simpl.
  - constructor.
  - inversion Hall as [|? ? Hrule Hrest]; subst.
    destruct (shouldTrigger now rule data) as [[|]|]; simpl.
    + destruct (valid (newNotification now rule data)); simpl; [|exact Hall].
      destruct (validates (updateStatistics now true rule)); simpl; [|exact Hall].
      constructor; [now apply Hkeep | now apply IH].
    + constructor; [exact Hrule | now apply IH].
    + exact Hall.
Qed.

(** A property of the notifications written: it holds of all of them when it
    holds of the ones made for the rules that fire with a valid document. *)
Lemma run_rules_triggered_Forall (P : Notification -> Prop) :
  forall rules triggered,
    Forall (fun rule => shouldTrigger now rule data = Some true ->
                        valid (newNotification now rule data) = true ->
                        P (newNotification now rule data)) rules ->
    Forall P triggered ->
    Forall P (lr_triggered (run_rules now data rules triggered)).
Proof.
  induction rules as [|rule rest IH]; intros triggered Hall Htr; simpl.
  - exact Htr.
  - inversion Hall as [|? ? Hrule Hrest]; subst.
    destruct (shouldTrigger now rule data) as [[|]|]; simpl.
    + destruct (valid (newNotification now rule data)) eqn:Hv; simpl; [|exact Htr].
      assert (Hnew : Forall P (triggered ++ [newNotification now rule data])).
      { apply Forall_app. split; [exact Htr|].
        constructor; [now apply Hrule | constructor]. }
      destruct (validates (updateStatistics now true rule)); simpl;
        [now apply IH | exact Hnew].
    + now apply IH.
    + exact Htr.
Qed.

(** The loop, step by step.  It breaks at the first rule that throws in its
    gate or conditions, or has its notification refused, or has its own save
    refused after its notification was written.  The rules before that one
    are processed in full; that rule and the ones after it are left as they
    were. *)
Lemma run_rules_interrupted (rules : list NotificationRule) :
  forall triggered,
    lr_completed (run_rules now data rules triggered) = false ->
    exists pre rule post,
      rules = pre ++ rule :: post
      /\ Forall (fun p => shouldTrigger now p data = Some false
                          \/ (shouldTrigger now p data = Some true
                              /\ valid (newNotification now p data) = true
                              /\ validates p = true)) pre
      /\ lr_rules (run_rules now data rules triggered)
         = map (fun p => if fires now data p then updateStatistics now true p else p) pre
           ++ rule :: post
      /\ (((shouldTrigger now rule data = None
            \/ (shouldTrigger now rule data = Some true
                /\ valid (newNotification now rule data) = false))
           /\ lr_triggered (run_rules now data rules triggered)
              = triggered ++ map (fun p => newNotification now p data)
                                 (filter (fires now data) pre))
          \/ (shouldTrigger now rule data = Some true
              /\ valid (newNotification now rule data) = true
              /\ validates rule = false
              /\ lr_triggered (run_rules now data rules triggered)
                 = triggered ++ map (fun p => newNotification now p data)
                                    (filter (fires now data) pre)
                   ++ [newNotification now rule data])).
Proof.
  induction rules as [|r rest IH]; intros triggered; simpl; [discriminate|].
  destruct (shouldTrigger now r data) as [[|]|] eqn:Hr; simpl.
  - destruct (valid (newNotification now r data)) eqn:Hv; simpl.
    + rewrite validates_updateStatistics.
      destruct (validates r) eqn:Hs; simpl.
      * intros Hc.
        destruct (IH _ Hc) as (pre & rule & post & -> & Hpre & Hrules & Hcause).
        exists (r :: pre), rule, post. split; [reflexivity|].
        split; [constructor; [right; now repeat split | exact Hpre]|].
        assert (Hfr : fires now data r = true) by (unfold fires; now rewrite Hr).
        split.
        -- simpl. rewrite Hfr. now rewrite Hrules.
        -- simpl. rewrite Hfr. simpl.
           destruct Hcause as [[Hrule Htr] | (Hf & Hv' & Hs' & Htr)];
             [left; split; [exact Hrule|] | right; repeat split; try assumption];
             rewrite Htr, <- app_assoc; reflexivity.
      * intros _. exists [], r, rest. split; [reflexivity|].
        split; [constructor|]. split; [reflexivity|].
        right. now repeat split.
    + intros _. exists [], r, rest. split; [reflexivity|].
      split; [constructor|]. split; [reflexivity|].
      left. split; [right; now split | now rewrite app_nil_r].
  - intros Hc. destruct (IH _ Hc) as (pre & rule & post & -> & Hpre & Hrules & Hcause).
    exists (r :: pre), rule, post. split; [reflexivity|].
    split; [constructor; [now left | exact Hpre]|].
    assert (Hfr : fires now data r = false) by (unfold fires; now rewrite Hr).
    split.
    + simpl. rewrite Hfr. now rewrite Hrules.
    + simpl. rewrite Hfr. exact Hcause.
  - intros _. exists [], r, rest. split; [reflexivity|].
    split; [constructor|]. split; [reflexivity|].
    left. split; [now left | now rewrite app_nil_r].
Qed.


End Effects.

Lemma find_In (collection : list NotificationRule) (req : TriggerRequest)
      (rule : NotificationRule) :
  In rule (find collection req)
  <-> In rule collection
      /\ businessId rule = req_businessId req
      /\ eventType rule = req_eventType req
      /\ isActive (settings rule) = true.
Proof.
  unfold find. rewrite filter_In, !andb_true_iff, String.eqb_eq.
  assert (He : eventType_eqb (eventType rule) (req_eventType req) = true
               <-> eventType rule = req_eventType req).
  { destruct (eventType rule), (req_eventType req); simpl; split;
      congruence. }
  rewrite He. tauto.
Qed.

(** X10.  The statistics stay balanced: a rule document whose totalTriggered
    is the sum of totalSent and totalFailed (as the schema defaults 0, 0, 0
    are) is still so after updateStatistics, with either flag, and every
    document a trigger request leaves behind is balanced when the documents
    of the collection were, also when the request fails half way. *)
Theorem statistics_balance {RT : JSRuntime} (now : Z)
        (collection : list NotificationRule) (req : TriggerRequest) :
  let balanced rule :=
    totalTriggered (statistics rule)
    = totalSent (statistics rule) + totalFailed (statistics rule) in
  (forall t success rule, balanced rule -> balanced (updateStatistics t success rule))
  /\ (Forall balanced collection ->
      Forall balanced (rules_after (trigger now collection req))).
Proof.
  intros balanced.
  assert (Hkeep : forall t success rule,
             balanced rule -> balanced (updateStatistics t success rule)).
  { intros t [|] rule; unfold balanced; simpl; lia. }
  split; [exact Hkeep|].
  intros Hall. unfold trigger. cbn [rules_after].
  apply run_rules_rules_Forall; [apply Hkeep|].
  rewrite Forall_forall in *. intros rule Hin. apply Hall.
  now apply find_In in Hin.
Qed.

Lemma statistics_balance_witness :
  Forall (fun rule => totalTriggered (statistics rule)
                      = totalSent (statistics rule) + totalFailed (statistics rule))
         (rules_after (trigger (RT := ref_runtime) 1000 [two_action_rule] low_rating_event)).
Proof.
  apply (proj2 (statistics_balance (RT := ref_runtime) 1000 [two_action_rule]
                  low_rating_event)).
  repeat constructor.
Defined.

(** X11.  A rule that fired in a served request is closed to the next
    requests for the length of its cooldown: the document the handler leaves
    at the rule's place does not trigger, on any payload, at any time less
    than [cooldown] minutes after the request. *)
Theorem cooldown_between_requests {RT : JSRuntime} (t t' : Z)
        (collection : list NotificationRule) (req : TriggerRequest)
        (sent : list Notification) (count i : nat) (rule : NotificationRule)
        (data' : Value) :
  response (trigger t collection req) = Success sent count ->
  nth_error (find collection req) i = Some rule ->
  shouldTrigger t rule (req_triggerData req) = Some true ->
  0 < cooldown (settings rule) ->
  t' - t < cooldown (settings rule) * 60000 ->
  exists rule',
    nth_error (rules_after (trigger t collection req)) i = Some rule'
    /\ _id rule' = _id rule
    /\ shouldTrigger t' rule' data' <> Some true.
Proof.
  unfold trigger. cbn [response rules_after].
  intros Hresp Hnth Hfire Hpos Hnear.
  destruct (run_rules_pointwise t (req_triggerData req) (find collection req) [] i rule Hnth)
    as (rule' & Hnth' & _ & Hdone).
  exists rule'. split; [exact Hnth'|].
  destruct (lr_completed (run_rules t (req_triggerData req) (find collection req) []));
    [|discriminate].
  rewrite (Hdone eq_refl Hfire). split; [reflexivity|].
  now apply (shouldTrigger_cooling t' t).
Qed.

Lemma cooldown_between_requests_witness :
  exists rule',
    nth_error
      (rules_after
         (trigger (RT := ref_runtime) (at_time 9 0)
            [rule_with "r1"
               {| isActive := true; s_priority := 0; cooldown := 30;
                  timeWindow := {| tw_start := None; tw_end := None;
                                   tw_timezone := "UTC" |};
                  frequency := immediate |}
               [rating_below_3] [email_action "Low rating" "ops@x.io"]]
            low_rating_event)) 0
    = Some rule'
    /\ _id rule' = "r1"%string
    /\ shouldTrigger (RT := ref_runtime) (at_time 9 29) rule'
         (VObj [("rating", VNum 2)]) <> Some true.
Proof.
  eapply (cooldown_between_requests (RT := ref_runtime) (at_time 9 0) (at_time 9 29)
            [rule_with "r1"
               {| isActive := true; s_priority := 0; cooldown := 30;
                  timeWindow := {| tw_start := None; tw_end := None;
                                   tw_timezone := "UTC" |};
                  frequency := immediate |}
               [rating_below_3] [email_action "Low rating" "ops@x.io"]]
            low_rating_event _ _ 0%nat
            (rule_with "r1"
               {| isActive := true; s_priority := 0; cooldown := 30;
                  timeWindow := {| tw_start := None; tw_end := None;
                                   tw_timezone := "UTC" |};
                  frequency := immediate |}
               [rating_below_3] [email_action "Low rating" "ops@x.io"])
            (VObj [("rating", VNum 2)]));
    reflexivity.
Defined.

(** X12.  Whatever a trigger request writes belongs to the request: every
    notification saved, also by a request that fails later, carries the
    business and the event type of the request and its payload, and was made
    for an active rule of the collection with that business and event type,
    whose id it holds.  It starts pending, with no retry counted and three
    allowed, so it is not yet a candidate for a retry. *)
Theorem saved_notifications_belong {RT : JSRuntime} (now : Z)
        (collection : list NotificationRule) (req : TriggerRequest) :
  Forall (fun n =>
            n_businessId n = req_businessId req
            /\ n_eventType n = req_eventType req
            /\ triggerData n = req_triggerData req
            /\ (exists rule,
                  In rule collection /\ ruleId n = _id rule
                  /\ isActive (settings rule) = true
                  /\ shouldTrigger now rule (req_triggerData req) = Some true)
            /\ status n = st_pending
            /\ retryCount n = 0 /\ maxRetries n = 3
            /\ canRetry n = false)
         (saved (trigger now collection req)).
Proof.
  unfold trigger. cbn [saved].
  apply run_rules_triggered_Forall; [|constructor].
  rewrite Forall_forall. intros rule Hin Hfire _.
  apply find_In in Hin as (Hin & Hb & He & Ha).
  cbn. repeat split; try assumption.
  exists rule. now repeat split.
Qed.

Lemma run_rules_refused {RT : JSRuntime} (now : Z) (data : Value)
      (rules : list NotificationRule) :
  (forall rule, valid (newNotification now rule data) = false) ->
  forall triggered,
    lr_rules (run_rules now data rules triggered) = rules
    /\ lr_triggered (run_rules now data rules triggered) = triggered
    /\ (lr_completed (run_rules now data rules triggered) = true
        <-> Forall (fun rule => shouldTrigger now rule data = Some false) rules).
Proof.
  intros Hv. induction rules as [|rule rest IH]; intros triggered; simpl.
  - repeat split. constructor.
  - destruct (shouldTrigger now rule data) as [[|]|] eqn:Hr; simpl.
    + rewrite Hv. simpl. repeat split; [discriminate|].
      inversion 1; congruence.
    + destruct (IH triggered) as (-> & -> & Hc). repeat split.
      * intros H. constructor; [exact Hr | now apply Hc].
      * intros H. inversion H; subst. now apply Hc.
    + repeat split; [discriminate|]. inversion 1; congruence.
Qed.

(** X13.  A request without triggerData (absent or null) writes nothing: no
    notification is saved and no rule document changes.  It is answered with
    an empty success exactly when shouldTrigger is false for every rule
    found; as soon as one rule triggers, its notification is refused for want
    of the required triggerData and the answer is the error. *)
Theorem trigger_without_payload {RT : JSRuntime} (now : Z)
        (collection : list NotificationRule) (req : TriggerRequest) :
  req_triggerData req = VUndef \/ req_triggerData req = VNull ->
  let out := trigger now collection req in
  saved out = []
  /\ rules_after out = find collection req
  /\ (response out = Success [] 0
      <-> Forall (fun rule => shouldTrigger now rule (req_triggerData req) = Some false)
                 (find collection req))
  /\ (response out <> Success [] 0
      -> response out = Failure "Failed to trigger notifications").
Proof.
  intros Hdata out. unfold out, trigger. cbn [saved rules_after response].
  assert (Hv : forall rule,
             valid (newNotification now rule (req_triggerData req)) = false).
  { intros rule. unfold valid. cbn [triggerData newNotification].
    destruct Hdata as [-> | ->]; reflexivity. }
  destruct (run_rules_refused now (req_triggerData req) (find collection req) Hv [])
    as (Hrules & Htr & Hc).
  rewrite Hrules, Htr. split; [reflexivity|]. split; [reflexivity|].
  destruct (lr_completed (run_rules now (req_triggerData req) (find collection req) [])).
  - split; [|contradiction]. split; intros _; [now apply Hc | reflexivity].
  - split; [|reflexivity]. split; [discriminate|].
    intros H. apply Hc in H. discriminate.
Qed.

Lemma trigger_without_payload_witness :
  response (trigger (RT := ref_runtime) 1000 [two_action_rule]
              {| req_businessId := "B1"; req_eventType := rating_low;
                 req_triggerData := VUndef |})
  = Failure "Failed to trigger notifications"
  /\ saved (trigger (RT := ref_runtime) 1000 [two_action_rule]
              {| req_businessId := "B1"; req_eventType := rating_low;
                 req_triggerData := VUndef |}) = [].
Proof.
  destruct (trigger_without_payload (RT := ref_runtime) 1000 [two_action_rule]
              {| req_businessId := "B1"; req_eventType := rating_low;
                 req_triggerData := VUndef |} (or_introl eq_refl))
    as (Hsaved & _ & _ & Hfail).
  split; [|exact Hsaved].
  apply Hfail. vm_compute. discriminate.
Defined.

(** X14.  A failed request is not undone.  When the answer is the error, the
    rules found split into the ones before the rule at which the loop broke,
    that rule, and the rest.  Every rule before it that fired has its
    notification saved and its statistics updated, although the caller is
    told that triggering failed; the breaking rule and the rules after it are
    as they were.  The loop broke in one of three ways: the rule threw in its
    gate or conditions, or it fired and its notification was refused, and
    then nothing was written for it; or it fired, its notification was saved,
    and the save of the rule itself was refused, and then that notification
    stays although the rule's statistics do not count it. *)
Theorem failed_trigger_keeps_effects {RT : JSRuntime} (now : Z)
        (collection : list NotificationRule) (req : TriggerRequest) (message : string) :
  response (trigger now collection req) = Failure message ->
  let data := req_triggerData req in
  let made := fun p => newNotification now p data in
  exists pre rule post,
    find collection req = pre ++ rule :: post
    /\ Forall (fun p => shouldTrigger now p data = Some false
                        \/ (shouldTrigger now p data = Some true
                            /\ valid (made p) = true /\ validates p = true)) pre
    /\ rules_after (trigger now collection req)
       = map (fun p => if fires now data p then updateStatistics now true p else p) pre
         ++ rule :: post
    /\ (((shouldTrigger now rule data = None
          \/ (shouldTrigger now rule data = Some true /\ valid (made rule) = false))
         /\ saved (trigger now collection req) = map made (filter (fires now data) pre))
        \/ (shouldTrigger now rule data = Some true
            /\ valid (made rule) = true
            /\ validates rule = false
            /\ saved (trigger now collection req)
               = map made (filter (fires now data) pre) ++ [made rule])).
Proof.
  intros Hresp data made. revert Hresp. unfold trigger. cbn [response rules_after saved].
  fold data.
  destruct (lr_completed (run_rules now data (find collection req) [])) eqn:Hc;
    [discriminate|].
  intros _. exact (run_rules_interrupted now data (find collection req) [] Hc).
Qed.

Lemma failed_trigger_keeps_effects_witness :
  let broken :=
    rule_with "r-broken" (settings_with true None None)
      [{| c_field := "customer"; c_operator := "contains"; c_value := VStr "vip" |}] [] in
  let req :=
    {| req_businessId := "B1"; req_eventType := rating_low;
       req_triggerData :=
         VObj [("rating", VNum 1); ("customer", VObj [("toString", VNull)])] |} in
  let out := trigger (RT := ref_runtime) 1000 [two_action_rule; broken] req in
  let made := fun p => newNotification 1000 p (req_triggerData req) in
  (response out = Failure "Failed to trigger notifications"
   /\ saved out = [made two_action_rule]
   /\ rules_after out = [updateStatistics 1000 true two_action_rule; broken])
  /\ exists pre rule post,
       find [two_action_rule; broken] req = pre ++ rule :: post
       /\ Forall (fun p => shouldTrigger (RT := ref_runtime) 1000 p (req_triggerData req)
                           = Some false
                           \/ (shouldTrigger (RT := ref_runtime) 1000 p (req_triggerData req)
                               = Some true
                               /\ valid (made p) = true /\ validates p = true)) pre
       /\ rules_after out
          = map (fun p => if fires (RT := ref_runtime) 1000 (req_triggerData req) p
                          then updateStatistics 1000 true p else p) pre
            ++ rule :: post
       /\ (((shouldTrigger (RT := ref_runtime) 1000 rule (req_triggerData req) = None
             \/ (shouldTrigger (RT := ref_runtime) 1000 rule (req_triggerData req)
                 = Some true
                 /\ valid (made rule) = false))
            /\ saved out
               = map made (filter (fires (RT := ref_runtime) 1000 (req_triggerData req)) pre))
           \/ (shouldTrigger (RT := ref_runtime) 1000 rule (req_triggerData req) = Some true
               /\ valid (made rule) = true
               /\ validates rule = false
               /\ saved out
                  = map made (filter (fires (RT := ref_runtime) 1000 (req_triggerData req))
                                     pre)
                    ++ [made rule])).
Proof.
  intros broken req out made. split; [repeat split|].
  exact (failed_trigger_keeps_effects (RT := ref_runtime) 1000
           [two_action_rule; broken] req "Failed to trigger notifications" eq_refl).
Defined.

(** The third way, on a stored rule whose first template is empty: the
    notification is written with the fallback texts, the save of the rule is
    refused, the answer is the error and the statistics are as before. *)
Lemma refused_rule_save_keeps_notification :
  let stale :=
    rule_with "r-stale" (settings_with true None None) [rating_below_3]
              [email_action "" "ops@x.io"] in
  let out := trigger (RT := ref_runtime) 1000 [stale] low_rating_event in
  response out = Failure "Failed to trigger notifications"
  /\ saved out = [newNotification 1000 stale (req_triggerData low_rating_event)]
  /\ rules_after out = [stale].
Proof. repeat split. Qed.





(** ** The life of a notification *)

Lemma forEach_settled (f : RecipientEntry -> RecipientEntry) (l : list RecipientEntry) :
  Forall (fun r => f r = r) l -> forEach f l = l.
Proof.
  rewrite forEach_map. induction 1 as [|r l Hr _ IH]; simpl; [reflexivity|].
  now rewrite Hr, IH.
Qed.

Lemma send_recipient_settled (now : Z) (r : RecipientEntry) :
  rc_status (send_recipient now r) <> rs_pending.
Proof. unfold send_recipient. destruct (rc_status r) eqn:H; simpl; congruence. Qed.

Lemma fail_recipient_settled (err : string) (r : RecipientEntry) :
  rc_status (fail_recipient err r) <> rs_pending.
Proof. unfold fail_recipient. destruct (rc_status r) eqn:H; simpl; congruence. Qed.

Lemma settled_unchanged (now : Z) (err : string) (r : RecipientEntry) :
  rc_status r <> rs_pending -> send_recipient now r = r /\ fail_recipient err r = r.
Proof.
  unfold send_recipient, fail_recipient.
  destruct (rc_status r); simpl; intros H; now split.
Qed.

(** X16.  The first of markAsSent and markAsFailed settles the recipients
    for good: after either call no recipient is pending, and a later call of
    either method, at any time and with any error text, changes none of them.
    So marking a failed notification as sent sets its status to sent and
    leaves every recipient failed, and a recipient keeps the sentAt or the
    error of the call that settled it. *)
Theorem recipients_settle_once (t1 t2 : Z) (e1 e2 : string) (n : Notification) :
  let sent := markAsSent t1 n in
  let failed := markAsFailed t1 e1 n in
  Forall (fun r => rc_status r <> rs_pending) (recipients sent)
  /\ Forall (fun r => rc_status r <> rs_pending) (recipients failed)
  /\ recipients (markAsSent t2 sent) = recipients sent
  /\ recipients (markAsFailed t2 e2 sent) = recipients sent
  /\ recipients (markAsSent t2 failed) = recipients failed
  /\ recipients (markAsFailed t2 e2 failed) = recipients failed
  /\ status (markAsSent t2 failed) = st_sent
  /\ status (markAsFailed t2 e2 sent) = st_failed.
Proof.
  intros sent failed.
  assert (Hs : Forall (fun r => rc_status r <> rs_pending) (recipients sent)).
  { cbn [sent markAsSent recipients]. rewrite forEach_map. apply Forall_map.
    apply Forall_forall. intros r _. apply send_recipient_settled. }
  assert (Hf : Forall (fun r => rc_status r <> rs_pending) (recipients failed)).
  { cbn [failed markAsFailed recipients]. rewrite forEach_map. apply Forall_map.
    apply Forall_forall. intros r _. apply fail_recipient_settled. }
  split; [exact Hs|]. split; [exact Hf|].
  cbn [markAsSent markAsFailed recipients status] in *.
  repeat split; apply forEach_settled;
    (eapply Forall_impl; [|first [exact Hs | exact Hf]]);
    intros r Hr; apply (settled_unchanged t2 e2 r Hr).
Qed.

Lemma successful_after (f : RecipientEntry -> RecipientEntry) (l : list RecipientEntry) :
  (forall r, is_successful (rc_status (f r)) = is_successful (rc_status r)) ->
  List.length (filter (fun r => is_successful (rc_status r)) (forEach f l))
  = List.length (filter (fun r => is_successful (rc_status r)) l)
  /\ List.length (forEach f l) = List.length l.
Proof.
  intros Hf. rewrite forEach_map, length_map. split; [|reflexivity].
  induction l as [|r l IH]; simpl; [reflexivity|].
  rewrite Hf. destruct (is_successful (rc_status r)); simpl; now rewrite IH.
Qed.

(** X17.  Failing and retrying never change the success rate: markAsFailed
    and incrementRetry leave getSuccessRate as it was, since neither makes a
    recipient sent or delivered nor takes that status away. *)
Theorem getSuccessRate_unchanged (now : Z) (err : string) (n : Notification) :
  getSuccessRate (markAsFailed now err n) = getSuccessRate n
  /\ getSuccessRate (incrementRetry now n) = getSuccessRate n.
Proof.
  unfold getSuccessRate. cbn [markAsFailed incrementRetry recipients].
  split.
  - destruct (successful_after (fail_recipient err) (recipients n)) as [-> ->];
      [|reflexivity].
    intros r. unfold fail_recipient.
    destruct (rc_status r) eqn:H; simpl; rewrite ?H; reflexivity.
  - destruct (successful_after retry_recipient (recipients n)) as [-> ->];
      [|reflexivity].
    intros r. unfold retry_recipient.
    destruct (rc_status r) eqn:H; simpl; rewrite ?H; reflexivity.
Qed.

Lemma incrementRetry_iter (now : Z) (k : nat) (n : Notification) :
  let after := Nat.iter k (incrementRetry now) n in
  retryCount after = retryCount n + Z.of_nat k
  /\ status after = status n
  /\ maxRetries after = maxRetries n
  /\ recipients after
     = map (fun r => if is_failed (rc_status r)
                     then {| rc_type := rc_type r; rc_value := rc_value r;
                             rc_status := rc_status r; rc_sentAt := rc_sentAt r;
                             rc_error := rc_error r;
                             rc_retryCount := rc_retryCount r + Z.of_nat k |}
                     else r)
           (recipients n).
Proof.
  induction k as [|k IH].
  - simpl. repeat split; [lia|].
    rewrite <- (map_id (recipients n)) at 1. apply map_ext.
    intros r. destruct (is_failed (rc_status r)); [|reflexivity].
    destruct r; simpl. f_equal. lia.
  - cbn zeta in *. rewrite Nat.iter_succ.
    destruct IH as (Hc & Hs & Hm & Hr).
    cbn [incrementRetry retryCount status maxRetries recipients].
    rewrite Hc, Hs, Hm, Hr, forEach_map, map_map.
    repeat split; [lia|]. apply map_ext. intros r.
    unfold retry_recipient.
    destruct (is_failed (rc_status r)) eqn:Hf; simpl; rewrite Hf; [|reflexivity].
    f_equal. lia.
Qed.

(** X18.  Retrying is counted, not bounded.  After [k] calls of
    incrementRetry the notification's retryCount and that of each failed
    recipient have grown by [k], other recipients and the status are as
    before, and canRetry holds exactly when the status is failed and the
    count is still below maxRetries: incrementRetry itself never refuses, so
    the count can pass maxRetries. *)
Theorem incrementRetry_repeated (now : Z) (k : nat) (n : Notification) :
  let after := Nat.iter k (incrementRetry now) n in
  retryCount after = retryCount n + Z.of_nat k
  /\ status after = status n
  /\ canRetry after
     = (retryCount n + Z.of_nat k <? maxRetries n)
       && match status n with st_failed => true | _ => false end
  /\ (forall i r,
        nth_error (recipients n) i = Some r ->
        exists r',
          nth_error (recipients after) i = Some r'
          /\ rc_status r' = rc_status r
          /\ rc_retryCount r'
             = if is_failed (rc_status r) then rc_retryCount r + Z.of_nat k
               else rc_retryCount r).
Proof.
  intros after. destruct (incrementRetry_iter now k n) as (Hc & Hs & Hm & Hr).
  fold after in Hc, Hs, Hm, Hr.
  split; [exact Hc|]. split; [exact Hs|]. split.
  - unfold canRetry. now rewrite Hc, Hs, Hm.
  - intros i r Hi. rewrite Hr.
    eexists. split; [apply map_nth_error; exact Hi|].
    destruct (is_failed (rc_status r)); split; reflexivity.
Qed.

(** X19.  markAsFailed, like markAsSent, touches only what is pending: it
    sets the status to failed, failedAt to the current time and the error;
    each pending recipient becomes failed with that error and keeps its other
    fields; sent, delivered, bounced and already failed recipients are left as
    they are.  The retry count is not reset, so the notification can be
    retried afterwards exactly when that count is below maxRetries. *)
Theorem markAsFailed_frame (now : Z) (err : string) (n : Notification) :
  let after := markAsFailed now err n in
  status after = st_failed
  /\ failedAt after = Some now
  /\ error after = Some err
  /\ sentAt after = sentAt n
  /\ retryCount after = retryCount n
  /\ canRetry after = (retryCount n <? maxRetries n)
  /\ List.length (recipients after) = List.length (recipients n)
  /\ (forall i r,
        nth_error (recipients n) i = Some r ->
        exists r',
          nth_error (recipients after) i = Some r'
          /\ (rc_status r = rs_pending ->
              rc_status r' = rs_failed /\ rc_error r' = Some err
              /\ rc_sentAt r' = rc_sentAt r /\ rc_retryCount r' = rc_retryCount r
              /\ rc_type r' = rc_type r /\ rc_value r' = rc_value r)
          /\ (rc_status r <> rs_pending -> r' = r)).
Proof.
  intros after. unfold after, canRetry.
  cbn [markAsFailed status failedAt error sentAt retryCount maxRetries recipients].
  repeat split.
  - now rewrite andb_true_r.
  - now rewrite forEach_map, length_map.
  - intros i r Hi. exists (fail_recipient err r).
    split; [now apply nth_error_forEach|]. unfold fail_recipient. split.
    + intros ->. simpl. now repeat split.
    + intros Hne. destruct (rc_status r); simpl; congruence.
Qed.

Lemma zero_share (k : nat) :
  (0 < k)%nat -> Z.of_nat k < 2 ^ 53 ->
  (binary64_of_nat 0 / binary64_of_nat k * 100)%float = 0%float.
Proof.
  intros Hpos Hlt.
  assert (Hzero : (binary64_of_nat 0 / binary64_of_nat k)%float = 0%float).
  { apply Prim2SF_inj. rewrite FloatAxioms.div_spec.
    destruct (binary64_of_nat_finite k Hpos Hlt) as [m [e ->]].
    reflexivity. }
  rewrite Hzero. reflexivity.
Qed.

Lemma getSuccessRate_none (m : Notification) :
  Z.of_nat (List.length (recipients m)) < 2 ^ 53 ->
  Forall (fun r => is_successful (rc_status r) = false) (recipients m) ->
  getSuccessRate m = 0%float.
Proof.
  intros Hm Hall. unfold getSuccessRate.
  assert (Hnone : filter (fun r => is_successful (rc_status r)) (recipients m) = []).
  { clear Hm. induction Hall as [|r l Hr _ IH]; simpl; [reflexivity|].
    rewrite Hr. exact IH. }
  rewrite Hnone.
  destruct (recipients m) as [|r l] eqn:Hrec; [reflexivity|].
  change (List.length (r :: l) =? 0)%nat with false. cbv iota.
  apply zero_share; simpl in *; lia.
Qed.

(** X20.  Without a recipient that is sent or delivered the success rate is
    exactly 0, for a list of any length (below 2^53); so a notification whose
    recipients were all pending has the rate 0 once it is marked as failed,
    as it had before. *)
Theorem getSuccessRate_zero (now : Z) (err : string) (n : Notification) :
  Z.of_nat (List.length (recipients n)) < 2 ^ 53 ->
  (Forall (fun r => is_successful (rc_status r) = false) (recipients n) ->
   getSuccessRate n = 0%float)
  /\ (Forall (fun r => rc_status r = rs_pending) (recipients n) ->
      getSuccessRate (markAsFailed now err n) = 0%float).
Proof.
  intros Hlen. split; [now apply getSuccessRate_none|].
  intros Hall. apply getSuccessRate_none.
  - cbn [markAsFailed recipients]. now rewrite forEach_map, length_map.
  - cbn [markAsFailed recipients]. rewrite forEach_map. apply Forall_map.
    eapply Forall_impl; [|exact Hall]. intros r Hr. unfold fail_recipient.
    rewrite Hr. reflexivity.
Qed.

Lemma getSuccessRate_zero_witness :
  getSuccessRate
    (markAsFailed 1000 "smtp down"
       (notification_with [entry "a@x.io" rs_pending 0; entry "b@x.io" rs_pending 0]))
  = 0%float.
Proof.
  apply (proj2 (getSuccessRate_zero 1000 "smtp down"
                  (notification_with [entry "a@x.io" rs_pending 0;
                                      entry "b@x.io" rs_pending 0])
                  ltac:(simpl; lia))).
  repeat constructor.
Defined.

(** ** The static queries *)

Section Sorting.
Context {A : Type} (before : A -> A -> bool).

Lemma insert_sorted_Permutation (x : A) (l : list A) :
  Permutation (insert_sorted before x l) (x :: l).
Proof.
  induction l as [|y l IH]; simpl; [reflexivity|].
  destruct (before x y); [reflexivity|].
  rewrite IH. apply perm_swap.
Qed.

Lemma sort_Permutation (l : list A) : Permutation (sort before l) l.
Proof.
  induction l as [|x l IH]; simpl; [reflexivity|].
  rewrite insert_sorted_Permutation. now constructor.
Qed.

Hypothesis total : forall a b, before a b = false -> before b a = true.
Hypothesis trans :
  forall a b c, before a b = true -> before b c = true -> before a c = true.

Lemma insert_sorted_sorted (x : A) (l : list A) :
  StronglySorted (fun a b => before a b = true) l ->
  StronglySorted (fun a b => before a b = true) (insert_sorted before x l).
Proof.
  induction 1 as [|y l Hl IH Hy]; simpl; [repeat constructor|].
  destruct (before x y) eqn:Hxy.
  - constructor; [now constructor|]. constructor; [exact Hxy|].
    eapply Forall_impl; [|exact Hy]. intros z Hz. exact (trans _ _ _ Hxy Hz).
  - constructor; [exact IH|].
    rewrite Forall_forall. intros z Hz.
    apply (Permutation_in _ (insert_sorted_Permutation x l)) in Hz.
    destruct Hz as [<- | Hz]; [now apply total|].
    rewrite Forall_forall in Hy. now apply Hy.
Qed.

Lemma sort_sorted (l : list A) :
  StronglySorted (fun a b => before a b = true) (sort before l).
Proof.
  induction l as [|x l IH]; simpl; [constructor | now apply insert_sorted_sorted].
Qed.

End Sorting.

Lemma StronglySorted_prefix {A : Type} (R : A -> A -> Prop) (l1 l2 : list A) :
  StronglySorted R (l1 ++ l2) -> StronglySorted R l1.
Proof.
  induction l1 as [|x l1 IH]; simpl; [constructor|].
  intros H. inversion H as [|? ? Hs Hx]; subst. constructor; [now apply IH|].
  apply Forall_app in Hx. tauto.
Qed.

Lemma StronglySorted_nth {A : Type} (R : A -> A -> Prop) (l : list A) :
  StronglySorted R l ->
  forall i j a b,
    (i < j)%nat -> nth_error l i = Some a -> nth_error l j = Some b -> R a b.
Proof.
  induction 1 as [|x l Hl IH Hx]; intros i j a b Hij Hi Hj.
  - now destruct i.
  - destruct j as [|j]; [lia|]. simpl in Hj. destruct i as [|i]; simpl in Hi.
    + injection Hi as <-. rewrite Forall_forall in Hx. apply Hx.
      eapply nth_error_In. exact Hj.
    + apply (IH i j); [lia | assumption | assumption].
Qed.

(** What [limit] returns is the front of the list. *)
Lemma limit_prefix {A : Type} (n : option nat) (l : list A) :
  exists rest, l = limit n l ++ rest.
Proof.
  destruct n as [[|k]|]; unfold limit.
  - exists []. now rewrite app_nil_r.
  - exists (skipn (S k) l). symmetry. apply (firstn_skipn (S k)).
  - exists (skipn 100 l). symmetry. apply firstn_skipn.
Qed.

Lemma limit_length {A : Type} (n : option nat) (l : list A) :
  (List.length (limit n l)
   <= match n with
      | None => 100
      | Some O => List.length l
      | Some k => k
      end)%nat.
Proof.
  destruct n as [[|k]|]; unfold limit; [lia | |]; rewrite length_firstn; lia.
Qed.

Lemma limit_all {A : Type} (n : option nat) (l : list A) :
  (List.length l
   <= match n with
      | None => 100
      | Some O => List.length l
      | Some k => k
      end)%nat ->
  limit n l = l.
Proof.
  destruct n as [[|k]|]; unfold limit; intros H; [reflexivity | |];
    now apply firstn_all2.
Qed.

Lemma priority_text_order (p q : Priority) :
  String.compare (priority_text p) (priority_text q)
  = Nat.compare (text_order q) (text_order p).
Proof. destruct p, q; reflexivity. Qed.

Lemma priority_then_schedule_spec (a b : Notification) :
  priority_then_schedule a b = true
  <-> (text_order (priority a) < text_order (priority b))%nat
      \/ (priority a = priority b /\ scheduledFor a <= scheduledFor b).
Proof.
  unfold priority_then_schedule. rewrite priority_text_order.
  destruct (Nat.compare_spec (text_order (priority b)) (text_order (priority a)))
    as [He|Hl|Hg].
  - rewrite Z.leb_le. split.
    + intros H. right. split; [|exact H].
      destruct (priority a), (priority b); simpl in He; congruence.
    + intros [H|[_ H]]; [lia | exact H].
  - split; [discriminate|]. intros [H|[H _]]; [lia|]. rewrite H in Hl. lia.
  - split; [now left | reflexivity].
Qed.

Lemma priority_then_schedule_total (a b : Notification) :
  priority_then_schedule a b = false -> priority_then_schedule b a = true.
Proof.
  intros H. apply priority_then_schedule_spec.
  destruct (priority_then_schedule a b) eqn:Hab; [discriminate|].
  assert (Hn : ~ ((text_order (priority a) < text_order (priority b))%nat
                  \/ (priority a = priority b /\ scheduledFor a <= scheduledFor b))).
  { intros Hc. apply priority_then_schedule_spec in Hc. congruence. }
  destruct (Nat.lt_trichotomy (text_order (priority a)) (text_order (priority b)))
    as [Hl|[He|Hg]].
  - tauto.
  - right. assert (Hp : priority a = priority b)
      by (destruct (priority a), (priority b); simpl in He; congruence).
    split; [now symmetry|]. destruct (Z.le_gt_cases (scheduledFor a) (scheduledFor b));
      [tauto | lia].
  - now left.
Qed.

Lemma priority_then_schedule_trans (a b c : Notification) :
  priority_then_schedule a b = true -> priority_then_schedule b c = true ->
  priority_then_schedule a c = true.
Proof.
  rewrite !priority_then_schedule_spec.
  intros [H1|[H1 H1']] [H2|[H2 H2']].
  - left. lia.
  - left. rewrite <- H2. exact H1.
  - left. rewrite H1. exact H2.
  - right. split; [congruence | lia].
Qed.

Lemma getPendingNotifications_sorted (now : Z) (collection : list Notification)
      (n : option nat) :
  StronglySorted (fun a b => priority_then_schedule a b = true)
                 (getPendingNotifications now collection n).
Proof.
  unfold getPendingNotifications.
  destruct (limit_prefix n (sort priority_then_schedule
                                 (filter (pending_due now) collection))) as [rest Hrest].
  apply (StronglySorted_prefix _ _ rest). rewrite <- Hrest.
  apply sort_sorted; [apply priority_then_schedule_total | apply priority_then_schedule_trans].
Qed.

Lemma limit_In {A : Type} (n : option nat) (l : list A) (x : A) :
  In x (limit n l) -> In x l.
Proof.
  destruct (limit_prefix n l) as [rest Hrest]. intros H.
  rewrite Hrest. apply in_or_app. now left.
Qed.

(** X21.  What getPendingNotifications returns: only notifications of the
    collection that are pending and due at the time of the call; at most
    [limit] of them (100 by default, all of them for the limit 0); ordered by
    the text of the priority, descending, and within one priority by
    scheduledFor, earliest first; and every due pending notification, once,
    when they fit in the limit. *)
Theorem getPendingNotifications_result (now : Z) (collection : list Notification)
        (n : option nat) :
  let result := getPendingNotifications now collection n in
  let bound := match n with
               | None => 100%nat
               | Some O => List.length collection
               | Some k => k
               end in
  (forall d, In d result ->
             In d collection /\ status d = st_pending /\ scheduledFor d <= now)
  /\ (List.length result <= bound)%nat
  /\ (forall i j a b,
        (i < j)%nat -> nth_error result i = Some a -> nth_error result j = Some b ->
        String.compare (priority_text (priority a)) (priority_text (priority b)) <> Lt
        /\ (priority a = priority b -> scheduledFor a <= scheduledFor b))
  /\ ((List.length (filter (pending_due now) collection) <= bound)%nat ->
      Permutation result (filter (pending_due now) collection)).
Proof.
  intros result bound. split; [|split; [|split]].
  - intros d Hd. apply limit_In in Hd.
    apply (Permutation_in _ (sort_Permutation _ _)) in Hd.
    apply filter_In in Hd as [Hin Hdue]. split; [exact Hin|].
    unfold pending_due in Hdue. apply andb_true_iff in Hdue as [Hs Ht].
    split; [now destruct (status d) | now apply Z.leb_le].
  - unfold result, getPendingNotifications.
    pose proof (limit_length n (sort priority_then_schedule
                                     (filter (pending_due now) collection))) as Hl.
    rewrite (Permutation_length (sort_Permutation _ _)) in Hl.
    pose proof (filter_length_le (pending_due now) collection).
    unfold bound. destruct n as [[|k]|]; lia.
  - intros i j a b Hij Hi Hj.
    pose proof (StronglySorted_nth _ _ (getPendingNotifications_sorted now collection n)
                  i j a b Hij Hi Hj) as Hab.
    unfold priority_then_schedule in Hab. split.
    + intros Hlt. rewrite Hlt in Hab. discriminate.
    + intros Hp. rewrite Hp in Hab.
      assert (Heq : String.compare (priority_text (priority b))
                                   (priority_text (priority b)) = Eq)
        by (destruct (priority b); reflexivity).
      rewrite Heq in Hab. now apply Z.leb_le.
  - intros Hfit. unfold result, getPendingNotifications.
    rewrite limit_all; [apply sort_Permutation|].
    rewrite (Permutation_length (sort_Permutation _ _)).
    unfold bound in Hfit. pose proof (filter_length_le (pending_due now) collection).
    destruct n as [[|k]|]; lia.
Qed.

Lemma filter_length_Permutation {A : Type} (f : A -> bool) (l l' : list A) :
  Permutation l l' -> List.length (filter f l) = List.length (filter f l').
Proof.
  induction 1 as [|x l l' _ IH|x y l|l l' l'' _ IH1 _ IH2]; simpl.
  - reflexivity.
  - destruct (f x); simpl; now rewrite IH.
  - destruct (f x), (f y); reflexivity.
  - now rewrite IH1.
Qed.

(** In a sorted list, once an element fails [keep] every later one does:
    then the first [k] elements all pass it when at least [k] elements do. *)
Lemma firstn_all_kept {A : Type} (R : A -> A -> Prop) (keep : A -> bool) (l : list A) :
  (forall a b, R a b -> keep a = false -> keep b = false) ->
  StronglySorted R l ->
  forall k, (k <= List.length (filter keep l))%nat ->
            Forall (fun a => keep a = true) (firstn k l).
Proof.
  intros Hlate. induction 1 as [|x l Hl IH Hx]; intros k Hk.
  - rewrite firstn_nil. constructor.
  - destruct k as [|k]; [constructor|]. simpl in *.
    destruct (keep x) eqn:Hkx.
    + constructor; [exact Hkx|]. apply IH. simpl in Hk. lia.
    + exfalso. assert (Hnone : filter keep l = []).
      { clear IH Hk Hl. induction Hx as [|y l Hy _ IHl]; simpl; [reflexivity|].
        rewrite (Hlate _ _ Hy Hkx). exact IHl. }
      rewrite Hnone in Hk. simpl in Hk. lia.
Qed.

(** X22.  The order of getPendingNotifications is that of the priority
    texts, not of the urgency: descending text order puts urgent first, then
    normal, then low, and high last.  So a high-priority notification is
    returned after every due notification of any other priority, and not at
    all when the due notifications of other priorities fill the limit. *)
Theorem high_priority_served_last (now : Z) (collection : list Notification)
        (n : option nat) :
  let result := getPendingNotifications now collection n in
  let bound := match n with None => 100%nat | Some k => k end in
  let other d := match priority d with high => false | _ => true end in
  (forall i j a b,
     (i < j)%nat -> nth_error result i = Some a -> nth_error result j = Some b ->
     (text_order (priority a) <= text_order (priority b))%nat
     /\ (priority a = high -> priority b = high))
  /\ ((0 < bound)%nat ->
      (bound <= List.length (filter (fun d => pending_due now d && other d) collection))%nat ->
      Forall (fun d => priority d <> high) result).
Proof.
  intros result bound other. split.
  - intros i j a b Hij Hi Hj.
    pose proof (StronglySorted_nth _ _ (getPendingNotifications_sorted now collection n)
                  i j a b Hij Hi Hj) as Hab.
    apply priority_then_schedule_spec in Hab.
    assert (Hle : (text_order (priority a) <= text_order (priority b))%nat).
    { destruct Hab as [H|[H _]]; [lia | rewrite H; lia]. }
    split; [exact Hle|]. intros Ha. rewrite Ha in Hle.
    destruct (priority b); simpl in Hle; try lia. reflexivity.
  - intros Hpos Hmany.
    assert (Hres : result = firstn bound (sort priority_then_schedule
                                               (filter (pending_due now) collection))).
    { unfold result, getPendingNotifications, limit, bound in *.
      destruct n as [[|k]|]; [lia | reflexivity | reflexivity]. }
    rewrite Hres.
    eapply Forall_impl;
      [|apply (firstn_all_kept (fun a b => priority_then_schedule a b = true) other)].
    + intros d Hd Hhigh. unfold other in Hd. rewrite Hhigh in Hd. discriminate.
    + intros a b Hab Ha. apply priority_then_schedule_spec in Hab.
      unfold other in *. destruct (priority a); try discriminate.
      destruct Hab as [H|[<- _]]; [|reflexivity].
      destruct (priority b); simpl in H; lia.
    + apply sort_sorted;
        [apply priority_then_schedule_total | apply priority_then_schedule_trans].
    + rewrite (filter_length_Permutation other _ _ (sort_Permutation _ _)).
      assert (Hff : forall l : list Notification,
                 filter other (filter (pending_due now) l)
                 = filter (fun d => pending_due now d && other d) l).
      { induction l as [|d l IH]; simpl; [reflexivity|].
        destruct (pending_due now d); simpl; [|exact IH].
        destruct (other d); simpl; now rewrite IH. }
      rewrite Hff. exact Hmany.
Qed.

Lemma high_priority_served_last_witness :
  let urgent_one :=
    newNotification 0 (rule_with "r2" (settings_with true None None) []
                                 [sms_action "Call back" "+15550100"]) VNull in
  let high_one :=
    newNotification 0 (rule_with "r1" (settings_with true None None) []
                                 [email_action "Low rating" "ops@x.io"]) VNull in
  Forall (fun d => priority d <> high)
         (getPendingNotifications 600000 [high_one; urgent_one] (Some 1%nat)).
Proof.
  intros urgent_one high_one.
  apply (proj2 (high_priority_served_last 600000 [high_one; urgent_one] (Some 1%nat))).
  - simpl. lia.
  - simpl. lia.
Defined.

Lemma failedAt_ascending_total (a b : Notification) :
  failedAt_ascending a b = false -> failedAt_ascending b a = true.
Proof.
  unfold failedAt_ascending. destruct (failedAt a), (failedAt b); try easy.
  rewrite Z.leb_gt, Z.leb_le. lia.
Qed.

Lemma failedAt_ascending_trans (a b c : Notification) :
  failedAt_ascending a b = true -> failedAt_ascending b c = true ->
  failedAt_ascending a c = true.
Proof.
  unfold failedAt_ascending. destruct (failedAt a), (failedAt b), (failedAt c); try easy.
  rewrite !Z.leb_le. lia.
Qed.

Lemma failed_retryable_spec (d : Notification) :
  failed_retryable d = true <-> status d = st_failed /\ retryCount d < 3.
Proof.
  unfold failed_retryable. rewrite andb_true_iff, Z.ltb_lt.
  destruct (status d); split; intros [H1 H2]; split; congruence.
Qed.

(** X23.  What getFailedNotifications returns: only notifications of the
    collection that are failed with fewer than three retries; at most [limit]
    of them; the longest failed first (a missing failedAt before any date);
    and every such notification, once, when they fit in the limit. *)
Theorem getFailedNotifications_result (collection : list Notification) (n : option nat) :
  let result := getFailedNotifications collection n in
  let bound := match n with
               | None => 100%nat
               | Some O => List.length collection
               | Some k => k
               end in
  (forall d, In d result ->
             In d collection /\ status d = st_failed /\ retryCount d < 3)
  /\ (List.length result <= bound)%nat
  /\ (forall i j a b x,
        (i < j)%nat -> nth_error result i = Some a -> nth_error result j = Some b ->
        failedAt a = Some x -> exists y, failedAt b = Some y /\ x <= y)
  /\ ((List.length (filter failed_retryable collection) <= bound)%nat ->
      Permutation result (filter failed_retryable collection)).
Proof.
  intros result bound. split; [|split; [|split]].
  - intros d Hd. apply limit_In in Hd.
    apply (Permutation_in _ (sort_Permutation _ _)) in Hd.
    apply filter_In in Hd as [Hin Hf]. split; [exact Hin|].
    now apply failed_retryable_spec.
  - unfold result, getFailedNotifications.
    pose proof (limit_length n (sort failedAt_ascending
                                     (filter failed_retryable collection))) as Hl.
    rewrite (Permutation_length (sort_Permutation _ _)) in Hl.
    pose proof (filter_length_le failed_retryable collection).
    unfold bound. destruct n as [[|k]|]; lia.
  - intros i j a b x Hij Hi Hj Hx.
    assert (Hsorted : StronglySorted (fun a b => failedAt_ascending a b = true) result).
    { unfold result, getFailedNotifications.
      destruct (limit_prefix n (sort failedAt_ascending
                                     (filter failed_retryable collection)))
        as [rest Hrest].
      apply (StronglySorted_prefix _ _ rest). rewrite <- Hrest.
      apply sort_sorted; [apply failedAt_ascending_total | apply failedAt_ascending_trans]. }
    pose proof (StronglySorted_nth _ _ Hsorted i j a b Hij Hi Hj) as Hab.
    unfold failedAt_ascending in Hab. rewrite Hx in Hab.
    destruct (failedAt b) as [y|]; [|discriminate].
    exists y. split; [reflexivity | now apply Z.leb_le].
  - intros Hfit. unfold result, getFailedNotifications.
    rewrite limit_all; [apply sort_Permutation|].
    rewrite (Permutation_length (sort_Permutation _ _)).
    unfold bound in Hfit. pose proof (filter_length_le failed_retryable collection).
    destruct n as [[|k]|]; lia.
Qed.

(** X24.  The query and canRetry agree only for the default retry budget.
    getFailedNotifications tests the retry count against the constant 3 and
    canRetry against the notification's own maxRetries: a returned
    notification whose maxRetries is 3 can be retried, and with the limit 0
    the notifications with maxRetries 3 that are returned are exactly the ones
    that can be retried; but a failed notification with a larger budget is no
    longer returned from its third retry on, although canRetry still holds,
    and one with a smaller budget is returned after canRetry has turned
    false. *)
Theorem getFailedNotifications_budget (collection : list Notification) (n : option nat)
        (d : Notification) :
  let result := getFailedNotifications collection n in
  (maxRetries d = 3 -> In d result -> canRetry d = true)
  /\ (maxRetries d = 3 -> In d collection -> canRetry d = true ->
      In d (getFailedNotifications collection (Some O)))
  /\ (3 <= retryCount d -> ~ In d result)
  /\ (In d collection -> status d = st_failed ->
      maxRetries d <= retryCount d -> retryCount d < 3 ->
      In d (getFailedNotifications collection (Some O)) /\ canRetry d = false).
Proof.
  intros result.
  assert (Hin : In d result -> In d collection /\ failed_retryable d = true).
  { intros Hd. apply limit_In in Hd.
    apply (Permutation_in _ (sort_Permutation _ _)) in Hd.
    now apply filter_In in Hd. }
  split; [|split; [|split]].
  - intros Hm Hd. apply Hin in Hd as [_ Hf].
    apply failed_retryable_spec in Hf as [Hs Hr].
    unfold canRetry. rewrite Hs, Hm, andb_true_r. now apply Z.ltb_lt.
  - intros Hm Hc Hcan. unfold getFailedNotifications, limit.
    apply (Permutation_in _ (Permutation_sym (sort_Permutation _ _))).
    apply filter_In. split; [exact Hc|].
    unfold canRetry in Hcan. apply andb_true_iff in Hcan as [Hr Hs].
    rewrite Hm in Hr. unfold failed_retryable. now rewrite Hr, Hs.
  - intros Hr Hd. apply Hin in Hd as [_ Hf].
    apply failed_retryable_spec in Hf. lia.
  - intros Hc Hs Hle Hr. split.
    + unfold getFailedNotifications, limit.
      apply (Permutation_in _ (Permutation_sym (sort_Permutation _ _))).
      apply filter_In. split; [exact Hc | now apply failed_retryable_spec].
    + unfold canRetry.
      replace (retryCount d <? maxRetries d) with false; [reflexivity|].
      symmetry. apply Z.ltb_ge. exact Hle.
Qed.

Lemma sum_from (l : list nat) (a : nat) : fold_left Nat.add l a = (a + sum l)%nat.
Proof.
  unfold sum. revert a. induction l as [|x l IH]; intros a; simpl; [lia|].
  rewrite (IH (a + x)%nat), (IH x). lia.
Qed.

Lemma sum_cons (x : nat) (l : list nat) : sum (x :: l) = (x + sum l)%nat.
Proof. unfold sum at 1. simpl. apply sum_from. Qed.

(** Summing a quantity status by status is summing it over all documents. *)
Lemma sum_by_status (f : Notification -> nat) (docs : list Notification) :
  sum (map (fun st => sum (map f (filter (fun n => status_eqb (status n) st) docs)))
           [st_pending; st_processing; st_sent; st_failed; st_cancelled])
  = sum (map f docs).
Proof.
  induction docs as [|d docs IH]; [reflexivity|].
  cbn [map] in *. rewrite !sum_cons in *. cbn [filter].
  destruct (status d); cbn [status_eqb map]; rewrite ?sum_cons; lia.
Qed.

(** A status that does not occur contributes nothing. *)
Lemma sum_present (f : Notification -> nat) (docs : list Notification)
      (statuses : list Status) :
  sum (map (fun st => sum (map f (filter (fun n => status_eqb (status n) st) docs)))
           (filter (fun st => existsb (fun n => status_eqb (status n) st) docs) statuses))
  = sum (map (fun st => sum (map f (filter (fun n => status_eqb (status n) st) docs)))
             statuses).
Proof.
  induction statuses as [|st statuses IH]; [reflexivity|].
  cbn [filter map].
  destruct (existsb (fun n => status_eqb (status n) st) docs) eqn:Hex.
  - cbn [map]. rewrite !sum_cons. now rewrite IH.
  - rewrite sum_cons, IH.
    assert (Hnone : filter (fun n => status_eqb (status n) st) docs = []).
    { clear IH. induction docs as [|d docs IHd]; [reflexivity|].
      simpl in Hex. apply orb_false_iff in Hex as [Hd Hrest].
      simpl. rewrite Hd. now apply IHd. }
    rewrite Hnone. reflexivity.
Qed.

Lemma sum_le (f g : Notification -> nat) (docs : list Notification) :
  (forall d, (f d <= g d)%nat) -> (sum (map f docs) <= sum (map g docs))%nat.
Proof.
  intros Hfg. induction docs as [|d docs IH]; [reflexivity|].
  cbn [map]. rewrite !sum_cons. specialize (Hfg d). lia.
Qed.

Lemma sum_ones {A : Type} (l : list A) : sum (map (fun _ => 1%nat) l) = List.length l.
Proof.
  induction l as [|x l IH]; [reflexivity|]. cbn [map]. rewrite sum_cons, IH. reflexivity.
Qed.

(** X25.  The statistics of getNotificationStats partition the matched
    notifications: there is one group per status that occurs, no status
    twice; each group counts at least one notification and no more successful
    recipients than recipients; the counts add up to the number of matched
    notifications and the recipient totals to the number of their recipients.
    The date range restricts the match only when both dates are given: with
    one of them missing the other is ignored. *)
Theorem getNotificationStats_partition (collection : list Notification)
        (business : string) (startDate endDate : option Z) :
  let groups := getNotificationStats collection business startDate endDate in
  let docs := filter (stats_match business startDate endDate) collection in
  NoDup (map g_id groups)
  /\ (forall g, In g groups ->
                (1 <= g_count g)%nat
                /\ (g_successfulRecipients g <= g_totalRecipients g)%nat
                /\ g_count g
                   = List.length (filter (fun n => status_eqb (status n) (g_id g)) docs))
  /\ (forall d, In d docs -> In (status d) (map g_id groups))
  /\ sum (map g_count groups) = List.length docs
  /\ sum (map g_totalRecipients groups)
     = sum (map (fun n => List.length (recipients n)) docs)
  /\ (startDate = None \/ endDate = None ->
      groups = getNotificationStats collection business None None).
Proof.
  intros groups docs. unfold groups, getNotificationStats. fold docs.
  set (present := filter (fun st => existsb (fun n => status_eqb (status n) st) docs)
                         [st_pending; st_processing; st_sent; st_failed; st_cancelled]).
  assert (Hid : map g_id (map (fun st => group_of st docs) present) = present).
  { rewrite map_map. cbn [group_of g_id]. apply map_id. }
  split; [|split; [|split; [|split; [|split]]]].
  - rewrite Hid. unfold present. apply NoDup_filter.
    repeat constructor; simpl; intuition discriminate.
  - intros g Hg. apply in_map_iff in Hg as (st & <- & Hst).
    unfold present in Hst. apply filter_In in Hst as [_ Hex].
    cbn [group_of g_count g_totalRecipients g_successfulRecipients g_id].
    rewrite sum_ones. split; [|split; [|reflexivity]].
    + apply existsb_exists in Hex as (d & Hd & Hs).
      assert (Hin : In d (filter (fun n => status_eqb (status n) st) docs))
        by (apply filter_In; now split).
      destruct (filter (fun n => status_eqb (status n) st) docs); [destruct Hin|].
      simpl. lia.
    + apply sum_le. intros d. apply filter_length_le.
  - intros d Hd. rewrite Hid. unfold present. apply filter_In. split.
    + destruct (status d); simpl; tauto.
    + apply existsb_exists. exists d. split; [exact Hd|].
      destruct (status d); reflexivity.
  - rewrite map_map. cbn [group_of g_count]. unfold present.
    rewrite (sum_present (fun _ => 1%nat)), sum_by_status. apply sum_ones.
  - rewrite map_map. cbn [group_of g_totalRecipients]. unfold present.
    now rewrite (sum_present (fun n => List.length (recipients n))), sum_by_status.
  - intros Hmiss. unfold present, docs.
    assert (Hm : forall d, stats_match business startDate endDate d
                           = stats_match business None None d).
    { intros d. unfold stats_match.
      destruct Hmiss as [-> | ->]; [reflexivity|]. now destruct startDate. }
    now rewrite (filter_ext _ _ Hm).
Qed.

(** X26.  From the handler to the queries.  A notification the handler made
    is offered by the pending query from its scheduled time on (the request
    time plus the delay of the rule's first action, in minutes), and no
    longer once it is marked as sent or as failed.  Marked as failed, it is
    offered by the failed query, and can be retried, for exactly three
    calls of incrementRetry. *)
Theorem notification_life_cycle (now t t1 t2 : Z) (err : string)
        (rule : NotificationRule) (data : Value) (k : nat) :
  let n := newNotification now rule data in
  let delay := match hd_error (actions rule) with
               | Some action => as_delay (a_settings action)
               | None => 0
               end in
  let retried := Nat.iter k (incrementRetry t2) (markAsFailed t1 err n) in
  (pending_due t n = true <-> now + delay * 60000 <= t)
  /\ pending_due t (markAsSent t1 n) = false
  /\ pending_due t (markAsFailed t1 err n) = false
  /\ failed_retryable n = false
  /\ failed_retryable retried = (Z.of_nat k <? 3)
  /\ canRetry retried = (Z.of_nat k <? 3).
Proof.
  intros n delay retried.
  destruct (incrementRetry_iter t2 k (markAsFailed t1 err n)) as (Hc & Hs & Hm & _).
  fold retried in Hc, Hs, Hm.
  split; [|repeat split].
  - unfold pending_due. cbn [n newNotification status scheduledFor andb].
    fold delay. apply Z.leb_le.
  - unfold failed_retryable. rewrite Hc, Hs. reflexivity.
  - unfold canRetry. rewrite Hc, Hs, Hm. simpl. apply andb_true_r.
Qed.

Lemma send_recipient_count (now : Z) (l : list RecipientEntry) :
  List.length (filter (fun r => is_successful (rc_status r)) (map (send_recipient now) l))
  = (List.length (filter (fun r => is_successful (rc_status r)) l)
     + List.length (filter (fun r => is_pending (rc_status r)) l))%nat.
Proof.
  induction l as [|r l IH]; simpl; [reflexivity|].
  unfold send_recipient at 1.
  destruct (rc_status r) eqn:Hr; simpl; rewrite ?Hr; simpl; rewrite IH; lia.
Qed.

(** X27.  markAsSent in general: the recipients that count as successful
    afterwards are the ones that did before and the ones that were pending;
    failed and bounced recipients stay as they are, and these three groups
    are all the recipients.  So the success rate after markAsSent is the
    share of the recipients that were sent, delivered or pending. *)
Theorem markAsSent_successes (now : Z) (n : Notification) :
  let after := markAsSent now n in
  let successes m :=
    List.length (filter (fun r => is_successful (rc_status r)) (recipients m)) in
  let pending :=
    List.length (filter (fun r => is_pending (rc_status r)) (recipients n)) in
  let lost m :=
    List.length (filter (fun r => match rc_status r with
                                  | rs_failed | rs_bounced => true
                                  | _ => false
                                  end) (recipients m)) in
  successes after = (successes n + pending)%nat
  /\ lost after = lost n
  /\ (successes n + pending + lost n)%nat = List.length (recipients n)
  /\ (recipients n <> [] ->
      getSuccessRate after
      = (binary64_of_nat (successes n + pending)
         / binary64_of_nat (List.length (recipients n)) * 100)%float).
Proof.
  intros after successes pending lost.
  assert (Hs : successes after = (successes n + pending)%nat).
  { unfold successes, after, pending. cbn [markAsSent recipients].
    rewrite forEach_map. apply send_recipient_count. }
  split; [exact Hs|]. split; [|split].
  - clear Hs. unfold lost, after. cbn [markAsSent recipients]. rewrite forEach_map.
    induction (recipients n) as [|r l IH]; simpl; [reflexivity|].
    unfold send_recipient at 1.
    destruct (rc_status r) eqn:Hr; simpl; rewrite ?Hr; simpl; rewrite IH; reflexivity.
  - clear Hs. unfold successes, pending, lost.
    induction (recipients n) as [|r l IH]; simpl; [reflexivity|].
    cbv zeta in IH. destruct (rc_status r); simpl; lia.
  - intros Hne. unfold getSuccessRate. fold (successes after). rewrite Hs.
    unfold after. cbn [markAsSent recipients]. rewrite forEach_map, length_map.
    destruct (recipients n); [contradiction | reflexivity].
Qed.

Lemma markAsSent_successes_witness :
  getSuccessRate
    (markAsSent 1000
       (notification_with [entry "a@x.io" rs_pending 0; entry "b@x.io" rs_bounced 0;
                           entry "c@x.io" rs_delivered 0; entry "d@x.io" rs_failed 1]))
  = 50%float.
Proof.
  rewrite (proj2 (proj2 (proj2 (markAsSent_successes 1000
             (notification_with [entry "a@x.io" rs_pending 0; entry "b@x.io" rs_bounced 0;
                                 entry "c@x.io" rs_delivered 0;
                                 entry "d@x.io" rs_failed 1])))));
    [vm_compute; reflexivity | discriminate].
Defined.

(** X28.  The rates of a notification the handler made.  As made it has
    the rate 0, every recipient being pending.  Marked as sent its rate is
    100 when the rule gave it at least one recipient and 0 when it gave none
    (a rule without actions or recipients); marked as failed its rate is 0. *)
Theorem new_notification_rates (now t : Z) (err : string) (rule : NotificationRule)
        (data : Value) :
  let n := newNotification now rule data in
  Z.of_nat (List.length (recipients n)) < 2 ^ 53 ->
  getSuccessRate n = 0%float
  /\ getSuccessRate (markAsFailed t err n) = 0%float
  /\ (recipients n <> [] -> getSuccessRate (markAsSent t n) = 100%float)
  /\ (recipients n = [] -> getSuccessRate (markAsSent t n) = 0%float).
Proof.
  intros n Hlen.
  assert (Hpending : Forall (fun r => rc_status r = rs_pending) (recipients n)).
  { eapply Forall_impl; [|apply new_recipients_pending]. intros r Hr. apply Hr. }
  assert (Hnone : Forall (fun r => is_successful (rc_status r) = false) (recipients n)).
  { eapply Forall_impl; [|exact Hpending]. intros r Hr. now rewrite Hr. }
  split; [now apply getSuccessRate_none|]. split; [|split].
  - apply getSuccessRate_none.
    + cbn [markAsFailed recipients]. now rewrite forEach_map, length_map.
    + cbn [markAsFailed recipients]. rewrite forEach_map. apply Forall_map.
      eapply Forall_impl; [|exact Hpending]. intros r Hr. unfold fail_recipient.
      rewrite Hr. reflexivity.
  - intros Hne. rewrite getSuccessRate_share.
    + cbn [markAsSent recipients].
      rewrite forEach_map, all_sent_count, length_map by assumption.
      apply whole_share_is_100; [|exact Hlen].
      destruct (recipients n); [contradiction | simpl; lia].
    + cbn [markAsSent recipients]. rewrite forEach_map.
      destruct (recipients n); [contradiction | discriminate].
  - intros Hnil. unfold getSuccessRate. cbn [markAsSent recipients].
    rewrite Hnil. reflexivity.
Qed.

Lemma new_notification_rates_witness :
  getSuccessRate (markAsSent 2000 (newNotification 1000 two_action_rule VNull))
  = 100%float.
Proof.
  apply (proj1 (proj2 (proj2 (new_notification_rates 1000 2000 "" two_action_rule VNull
                                ltac:(simpl; lia))))).
  discriminate.
Defined.
